(** * plot.py: the data core of the waveform viewer

    A shallow embedding of the data-access and state-tracking code of
    [plot.py]: the incremental CSV -> Parquet ingestion with its last-time
    file, the windowed read, nearest-row resolution, edge jumps, the delta
    selection and the loading of the view configuration.

    Times and sample values are float64 in the program.  They are embedded
    here as rationals ([Q]): every finite float64 is a rational, and the
    code only compares, subtracts and takes absolute values of them.  The
    one non-finite value the data layer produces by itself, the NaN that
    pandas returns as the maximum of an empty column, is kept as a separate
    constructor of [float].  Rounding of float subtraction is not modelled. *)

From Stdlib Require Import List Bool Arith Lia ZArith QArith Qabs Lqa String Sorted.
Import ListNotations.

Local Open Scope Q_scope.

(** ** Values, rows, data frames *)

Inductive float : Type :=
| Fin (q : Q)
| NaN.

(** One sample: the leftmost CSV column and the channel cells after it. *)
Record Row : Type := mkRow { time : Q; vals : list Q }.

(** A pandas DataFrame: all column names (the time column first) and the
    rows.  [pd.DataFrame()] has neither columns nor rows. *)
Record DataFrame : Type := mkDF { columns : list string; rows : list Row }.

Definition DataFrame_empty : DataFrame := mkDF [] [].

(** [df.empty] *)
Definition empty (df : DataFrame) : bool :=
  match rows df with [] => true | _ :: _ => false end.

Definition Qlt_bool (x y : Q) : bool := negb (Qle_bool y x).

(** [series > last_time] on one cell; every comparison with NaN is false. *)
Definition gt_float (t : Q) (h : float) : bool :=
  match h with
  | Fin q => Qlt_bool q t
  | NaN => false
  end.

(** [df[df["time"] > last_time]] *)
Definition select_gt (df : DataFrame) (h : float) : DataFrame :=
  mkDF (columns df) (filter (fun r => gt_float (time r) h) (rows df)).

(** [pd.concat([a, b], ignore_index=True)]; source and cache carry the same
    column set, so the rows line up cell by cell. *)
Definition concat (a b : DataFrame) : DataFrame :=
  mkDF (columns a) (rows a ++ rows b).

(** [max] of two cells as the reduction of [Series.max] sees them. *)
Definition Qmax2 (a b : Q) : Q := if Qle_bool a b then b else a.

(** [df["time"].max()]: NaN on an empty column. *)
Definition time_max (df : DataFrame) : float :=
  match rows df with
  | [] => NaN
  | r :: rs => Fin (fold_left (fun m r' => Qmax2 m (time r')) rs (time r))
  end.

(** ** Files and exceptions *)

(** A file on disk: absent, present but unreadable for its reader (a parse
    error, a malformed row, a non-numeric time cell), or holding a value. *)
Inductive file (A : Type) : Type :=
| Missing
| Garbled
| Holds (a : A).
Arguments Missing {A}.
Arguments Garbled {A}.
Arguments Holds {A} a.

Definition exists_ {A} (f : file A) : bool :=
  match f with Missing => false | _ => true end.

(** The view configuration as [json.load] returns it: a dict whose keys may
    be absent; [x_range] may also be null. *)
Record Config : Type := mkConfig {
  cfg_plot_order : option (list string);
  cfg_current_time : option Q;
  cfg_x_range : option (option (Q * Q))
}.

Record Disk : Type := mkDisk {
  CSV_FILE : file DataFrame;
  PARQUET_FILE : file DataFrame;
  TIME_FILE : file float;
  CONFIG_FILE : file Config
}.

Inductive exn : Type :=
| FileNotFoundError
| ParseError
| OSError
| IndexError
| KeyError
| ValueError
| AttributeError.

(** The I/O operations of one refresh that the environment may make fail.
    A failing write raises when the file is opened: nothing is written. *)
Record Faults : Type := mkFaults {
  fail_read_time : bool;
  fail_read_csv : bool;
  fail_read_parquet : bool;
  fail_write_parquet : bool;
  fail_write_time : bool
}.

Definition no_faults : Faults := mkFaults false false false false false.

(** ** A state-and-exception monad

    [St S A] is a computation over a mutable state [S] that returns an [A]
    or raises; the state reached when the exception is raised is kept, as
    Python keeps the assignments made before a [raise]. *)

Definition St (S A : Type) : Type := S -> S * (exn + A).

Definition ret {S A} (a : A) : St S A := fun s => (s, inr a).
Definition raise {S A} (e : exn) : St S A := fun s => (s, inl e).
Definition bind {S A B} (m : St S A) (k : A -> St S B) : St S B :=
  fun s => match m s with
           | (s1, inl e) => (s1, inl e)
           | (s1, inr a) => k a s1
           end.
Definition get {S} : St S S := fun s => (s, inr s).
Definition modify {S} (f : S -> S) : St S unit := fun s => (f s, inr tt).

(** A value that a failing lookup ([None]) turns into an exception. *)
Definition or_raise {S A} (e : exn) (o : option A) : St S A :=
  match o with Some a => ret a | None => raise e end.

Notation "x <- m ;; k" := (bind m (fun x => k))
  (at level 61, m at next level, right associativity).
Notation "m ;;; k" := (bind m (fun _ => k))
  (at level 61, right associativity).

Definition IO (A : Type) : Type := St Disk A.

Definition read {A} (failing : bool) (sel : Disk -> file A) : IO A :=
  fun d => if failing then (d, inl OSError)
           else match sel d with
                | Missing => (d, inl FileNotFoundError)
                | Garbled => (d, inl ParseError)
                | Holds a => (d, inr a)
                end.

Definition write_parquet (failing : bool) (df : DataFrame) : IO unit :=
  fun d => if failing then (d, inl OSError)
           else (mkDisk (CSV_FILE d) (Holds df) (TIME_FILE d) (CONFIG_FILE d), inr tt).

Definition write_time (failing : bool) (v : float) : IO unit :=
  fun d => if failing then (d, inl OSError)
           else (mkDisk (CSV_FILE d) (PARQUET_FILE d) (Holds v) (CONFIG_FILE d), inr tt).

(** [df.rename(columns={df.columns[0]: "time"}, inplace=True)] *)
Definition rename_time (df : DataFrame) : IO DataFrame :=
  match columns df with
  | [] => raise IndexError
  | _ :: cs => ret (mkDF ("time"%string :: cs) (rows df))
  end.

(** [pd.read_csv(CSV_FILE)] followed by the renaming of the first column. *)
Definition read_csv (failing : bool) : IO DataFrame :=
  df <- read failing CSV_FILE ;; rename_time df.

(** ** ColumnarCache: refresh and bootstrap *)

Inductive LogLine : Type :=
| Info_update_applied
| Error_refresh_failed (e : exn)
| Error_load_window_failed (e : exn)
| Error_no_data
| Error_failed_to_load_csv (e : exn)
| Debug_failed_to_load_config.

(** The incremental update shared by the refresh and by the second branch of
    the start-up code; it answers whether rows were appended. *)
Definition incremental_update (f : Faults) : IO bool :=
  last_time <- read (fail_read_time f) TIME_FILE ;;
  df_csv <- read_csv (fail_read_csv f) ;;
  let df_new := select_gt df_csv last_time in
  if negb (empty df_new) then
    df_parquet <- read (fail_read_parquet f) PARQUET_FILE ;;
    let df_combined := concat df_parquet df_new in
    write_parquet (fail_write_parquet f) df_combined ;;;
    write_time (fail_write_time f) (time_max df_csv) ;;;
    ret true
  else ret false.

(** [PlotWindow.refresh_parquet_from_csv]: the disk it leaves and the lines
    it prints.  Every exception of the body is caught. *)
Definition refresh_parquet_from_csv (f : Faults) (d : Disk)
  : Disk * list LogLine :=
  if negb (exists_ (CSV_FILE d)) || negb (exists_ (TIME_FILE d)) then (d, [])
  else
    match incremental_update f d with
    | (d', inr true) => (d', [Info_update_applied])
    | (d', inr false) => (d', [])
    | (d', inl e) => (d', [Error_refresh_failed e])
    end.

(** The start-up code under [if __name__ == "__main__"], up to the creation
    of the default configuration: nothing is caught here, an exception ends
    the process.  It answers the frame it read from the source. *)
Definition main_bootstrap (f : Faults) : IO DataFrame :=
  fun d =>
    if negb (exists_ (PARQUET_FILE d)) || negb (exists_ (TIME_FILE d)) then
      (df_csv <- read_csv (fail_read_csv f) ;;
       write_parquet (fail_write_parquet f) df_csv ;;;
       write_time (fail_write_time f) (time_max df_csv) ;;;
       ret df_csv) d
    else
      (last_time <- read (fail_read_time f) TIME_FILE ;;
       df_csv <- read_csv (fail_read_csv f) ;;
       let df_new := select_gt df_csv last_time in
       if negb (empty df_new) then
         df_parquet <- read (fail_read_parquet f) PARQUET_FILE ;;
         write_parquet (fail_write_parquet f) (concat df_parquet df_new) ;;;
         write_time (fail_write_time f) (time_max df_csv) ;;;
         ret df_csv
       else ret df_csv) d.

(** ** WindowLoader *)

Definition in_window (lo hi : Q) (r : Row) : bool :=
  Qle_bool lo (time r) && Qle_bool (time r) hi.

(** [pq.read_table(PARQUET_FILE, filters=[...]).to_pandas()] *)
Definition read_table (failing : bool) (lo hi : Q) : IO DataFrame :=
  df <- read failing PARQUET_FILE ;;
  ret (mkDF (columns df) (filter (in_window lo hi) (rows df))).

(** [PlotWindow.load_data_window]: the disk after the refresh, the frame
    returned and the lines printed. *)
Definition load_data_window (f : Faults) (fail_read_table : bool)
    (center_time window : Q) (d : Disk) : Disk * DataFrame * list LogLine :=
  let '(d1, log1) := refresh_parquet_from_csv f d in
  match read_table fail_read_table (center_time - window)
                   (center_time + window) d1 with
  | (d2, inr df) => (d2, df, log1)
  | (d2, inl e) => (d2, DataFrame_empty, log1 ++ [Error_load_window_failed e])
  end.

(** ** The frame in memory: columns and nearest-row resolution *)

Fixpoint index_of (name : string) (cols : list string) : option nat :=
  match cols with
  | [] => None
  | c :: cs => if String.eqb c name then Some O
               else option_map S (index_of name cs)
  end.

(** The cell of a row under the column at position [k]. *)
Definition cell (r : Row) (k : nat) : Q :=
  match k with
  | O => time r
  | S k' => nth k' (vals r) 0
  end.

(** [df[name]]: [None] stands for the KeyError of an unknown column. *)
Definition column (df : DataFrame) (name : string) : option (list Q) :=
  option_map (fun k => map (fun r => cell r k) (rows df))
             (index_of name (columns df)).

(** [df[df.columns[0]]]: [None] stands for the IndexError of a frame
    without columns. *)
Definition time_column (df : DataFrame) : option (list Q) :=
  match columns df with
  | [] => None
  | _ :: _ => Some (map time (rows df))
  end.

(** The scan behind [Series.idxmin] and [np.argmin]: the running minimum is
    replaced only by a strictly smaller value. *)
Fixpoint argmin_from (l : list Q) (i best : nat) (bv : Q) : nat :=
  match l with
  | [] => best
  | v :: l' => if Qlt_bool v bv then argmin_from l' (S i) i v
               else argmin_from l' (S i) best bv
  end.

(** [None] stands for the ValueError raised on an empty sequence. *)
Definition argmin (l : list Q) : option nat :=
  match l with
  | [] => None
  | v :: l' => Some (argmin_from l' 1%nat 0%nat v)
  end.

(** [(times - x).abs()] *)
Definition abs_diff (times : list Q) (x : Q) : list Q :=
  map (fun t => Qabs (t - x)) times.

(** [(df[time_col] - x).abs().idxmin()], also
    [np.argmin(np.abs(df[time_col] - x))]. *)
Definition nearest_index (times : list Q) (x : Q) : option nat :=
  argmin (abs_diff times x).

(** ** The window object *)

(** A [DraggablePlotFrame]: its plot widget (by identity) and its channel. *)
Record PlotFrame : Type := mkFrame { plot_widget : nat; var_name : string }.

(** An instance attribute: reading one that was never assigned raises
    AttributeError. *)
Inductive attr (A : Type) : Type :=
| Unset
| Assigned (a : A).
Arguments Unset {A}.
Arguments Assigned {A} a.

(** The numbers shown by [cursor_info_label]. *)
Record DeltaInfo : Type := mkDeltaInfo {
  dt : Q; dy : Q; X1 : Q; X2 : Q; Y1 : Q; Y2 : Q
}.

Definition DeltaInfo_zero : DeltaInfo := mkDeltaInfo 0 0 0 0 0 0.

Inductive Line : Type :=
| VLine (pos : Q)
| HLine (pos : Q).

(** The numbers shown by [time_label], with the channel name. *)
Record TimeInfo : Type := mkTimeInfo {
  shown_time : Q; shown_y : Q; shown_var : string
}.

Record PlotWindow : Type := mkWindow {
  data : option DataFrame;
  current_time : Q;
  cursor_locked : bool;
  delta_points : list Q;
  delta_lines : list Line;
  delta_plot : option nat;
  active_frame : option PlotFrame;
  frames : list PlotFrame;
  plot_order : list string;
  x_range : attr (option (Q * Q));
  cursor_info_label : DeltaInfo;
  time_label : option TimeInfo
}.

Definition set_data v (w : PlotWindow) : PlotWindow :=
  mkWindow v (current_time w) (cursor_locked w) (delta_points w)
    (delta_lines w) (delta_plot w) (active_frame w) (frames w) (plot_order w)
    (x_range w) (cursor_info_label w) (time_label w).
Definition set_current_time v (w : PlotWindow) : PlotWindow :=
  mkWindow (data w) v (cursor_locked w) (delta_points w)
    (delta_lines w) (delta_plot w) (active_frame w) (frames w) (plot_order w)
    (x_range w) (cursor_info_label w) (time_label w).
Definition set_cursor_locked v (w : PlotWindow) : PlotWindow :=
  mkWindow (data w) (current_time w) v (delta_points w)
    (delta_lines w) (delta_plot w) (active_frame w) (frames w) (plot_order w)
    (x_range w) (cursor_info_label w) (time_label w).
Definition set_delta_points v (w : PlotWindow) : PlotWindow :=
  mkWindow (data w) (current_time w) (cursor_locked w) v
    (delta_lines w) (delta_plot w) (active_frame w) (frames w) (plot_order w)
    (x_range w) (cursor_info_label w) (time_label w).
Definition set_delta_lines v (w : PlotWindow) : PlotWindow :=
  mkWindow (data w) (current_time w) (cursor_locked w) (delta_points w)
    v (delta_plot w) (active_frame w) (frames w) (plot_order w)
    (x_range w) (cursor_info_label w) (time_label w).
Definition set_delta_plot v (w : PlotWindow) : PlotWindow :=
  mkWindow (data w) (current_time w) (cursor_locked w) (delta_points w)
    (delta_lines w) v (active_frame w) (frames w) (plot_order w)
    (x_range w) (cursor_info_label w) (time_label w).
Definition set_active_frame v (w : PlotWindow) : PlotWindow :=
  mkWindow (data w) (current_time w) (cursor_locked w) (delta_points w)
    (delta_lines w) (delta_plot w) v (frames w) (plot_order w)
    (x_range w) (cursor_info_label w) (time_label w).
Definition set_frames v (w : PlotWindow) : PlotWindow :=
  mkWindow (data w) (current_time w) (cursor_locked w) (delta_points w)
    (delta_lines w) (delta_plot w) (active_frame w) v (plot_order w)
    (x_range w) (cursor_info_label w) (time_label w).
Definition set_plot_order v (w : PlotWindow) : PlotWindow :=
  mkWindow (data w) (current_time w) (cursor_locked w) (delta_points w)
    (delta_lines w) (delta_plot w) (active_frame w) (frames w) v
    (x_range w) (cursor_info_label w) (time_label w).
Definition set_x_range v (w : PlotWindow) : PlotWindow :=
  mkWindow (data w) (current_time w) (cursor_locked w) (delta_points w)
    (delta_lines w) (delta_plot w) (active_frame w) (frames w) (plot_order w)
    v (cursor_info_label w) (time_label w).
Definition set_cursor_info_label v (w : PlotWindow) : PlotWindow :=
  mkWindow (data w) (current_time w) (cursor_locked w) (delta_points w)
    (delta_lines w) (delta_plot w) (active_frame w) (frames w) (plot_order w)
    (x_range w) v (time_label w).
Definition set_time_label v (w : PlotWindow) : PlotWindow :=
  mkWindow (data w) (current_time w) (cursor_locked w) (delta_points w)
    (delta_lines w) (delta_plot w) (active_frame w) (frames w) (plot_order w)
    (x_range w) (cursor_info_label w) v.
(** [PlotWindow.__init__], before [load_data_and_create_plots] runs;
    [x_range] is not among the attributes it assigns. *)
Definition PlotWindow_init : PlotWindow :=
  mkWindow None 0 false [] [] None None [] [] Unset DeltaInfo_zero None.

Definition UI (A : Type) : Type := St PlotWindow A.

(** [next((f for f in self.frames if f.plot_widget == plot_widget), None)] *)
Definition frame_of (fs : list PlotFrame) (pw : nat) : option PlotFrame :=
  find (fun f => Nat.eqb (plot_widget f) pw) fs.

(** ** CursorState: the status line and the edge jump *)

(** The cells [df[f.var_name].iloc[idx]] read for every frame in turn;
    [None] stands for the exception of the first lookup that fails. *)
Fixpoint frame_cells (df : DataFrame) (idx : nat) (fs : list PlotFrame)
  : option (list Q) :=
  match fs with
  | [] => Some []
  | f :: fs' =>
      match column df (var_name f) with
      | None => None
      | Some ys =>
          match nth_error ys idx, frame_cells df idx fs' with
          | Some y, Some l => Some (y :: l)
          | _, _ => None
          end
      end
  end.

(** [PlotWindow.update_top_label] *)
Definition update_top_label : UI unit :=
  w <- get ;;
  match data w, active_frame w with
  | Some df, Some af =>
      times <- or_raise IndexError (time_column df) ;;
      idx <- or_raise ValueError (nearest_index times (current_time w)) ;;
      x_actual <- or_raise IndexError (nth_error times idx) ;;
      ys <- or_raise KeyError (column df (var_name af)) ;;
      y_val <- or_raise IndexError (nth_error ys idx) ;;
      modify (set_time_label
                (Some (mkTimeInfo x_actual y_val (var_name af)))) ;;;
      _ <- or_raise KeyError (frame_cells df idx (frames w)) ;;
      ret tt
  | _, _ => ret tt
  end.

(** [np.diff] *)
Fixpoint diff (l : list Q) : list Q :=
  match l with
  | [] => []
  | a :: l' => match l' with
               | [] => []
               | b :: _ => (b - a) :: diff l'
               end
  end.

(** [np.nonzero(l)[0]], counting positions from [i]. *)
Fixpoint nonzero_from (i : nat) (l : list Q) : list nat :=
  match l with
  | [] => []
  | v :: l' => if Qeq_bool v 0 then nonzero_from (S i) l'
               else i :: nonzero_from (S i) l'
  end.

(** [np.nonzero(np.diff(vals))[0] + 1] *)
Definition changes (values : list Q) : list nat :=
  map S (nonzero_from 0 (diff values)).

Definition last_error {A} (l : list A) : option A := hd_error (rev l).

(** What one frame contributes to [candidates]: [nexts[0]] for a positive
    direction, [prevs[-1]] otherwise. *)
Definition candidate (direction : Z) (idx_now : nat) (chg : list nat)
  : option nat :=
  if (direction >? 0)%Z
  then hd_error (filter (fun c => (idx_now <? c)%nat) chg)
  else last_error (filter (fun c => (c <? idx_now)%nat) chg).

(** The loop over [self.frames] that fills [candidates]; [None] stands for
    the KeyError of a frame whose channel is not a column. *)
Fixpoint collect_candidates (df : DataFrame) (direction : Z) (idx_now : nat)
    (fs : list PlotFrame) : option (list nat) :=
  match fs with
  | [] => Some []
  | f :: fs' =>
      match column df (var_name f) with
      | None => None
      | Some values =>
          match collect_candidates df direction idx_now fs' with
          | None => None
          | Some cs =>
              Some (match candidate direction idx_now (changes values) with
                    | Some c => c :: cs
                    | None => cs
                    end)
          end
      end
  end.

(** [min(candidates) if direction > 0 else max(candidates)] *)
Definition pick (direction : Z) (c : nat) (cs : list nat) : nat :=
  if (direction >? 0)%Z then fold_left Nat.min cs c
  else fold_left Nat.max cs c.

(** [PlotWindow.jump_to_edge] *)
Definition jump_to_edge (direction : Z) : UI unit :=
  w <- get ;;
  match data w with
  | None => ret tt
  | Some df =>
      times <- or_raise IndexError (time_column df) ;;
      idx_now <- or_raise ValueError
                   (nearest_index times (current_time w)) ;;
      candidates <- or_raise KeyError
                      (collect_candidates df direction idx_now (frames w)) ;;
      match candidates with
      | [] => ret tt
      | c :: cs =>
          let new_idx := pick direction c cs in
          t <- or_raise IndexError (nth_error times new_idx) ;;
          modify (set_current_time t) ;;;
          _ <- or_raise KeyError (frame_cells df new_idx (frames w)) ;;
          update_top_label
      end
  end.

(** ** DeltaMeasurement *)

(** [PlotWindow.clear_delta_lines] *)
Definition clear_delta_lines : UI unit :=
  modify (set_delta_lines []) ;;;
  modify (set_delta_points []) ;;;
  modify (set_cursor_info_label DeltaInfo_zero).

(** [PlotWindow.draw_delta_lines] *)
Definition draw_delta_lines (pw : nat) : UI unit :=
  w <- get ;;
  match delta_points w, data w with
  | [p1; p2], Some df =>
      modify (set_delta_lines []) ;;;
      match frame_of (frames w) pw with
      | None => ret tt
      | Some frame =>
          let '(x1, x2) := if Qlt_bool p2 p1 then (p2, p1) else (p1, p2) in
          times <- or_raise IndexError (time_column df) ;;
          idx1 <- or_raise ValueError (nearest_index times x1) ;;
          idx2 <- or_raise ValueError (nearest_index times x2) ;;
          x1' <- or_raise IndexError (nth_error times idx1) ;;
          x2' <- or_raise IndexError (nth_error times idx2) ;;
          ys <- or_raise KeyError (column df (var_name frame)) ;;
          y1 <- or_raise IndexError (nth_error ys idx1) ;;
          y2 <- or_raise IndexError (nth_error ys idx2) ;;
          modify (set_delta_lines [VLine x1'; VLine x2'; HLine y1; HLine y2]) ;;;
          modify (set_cursor_info_label
                    (mkDeltaInfo (Qabs (x2' - x1')) (y2 - y1) x1' x2' y1 y2))
      end
  | _, _ => ret tt
  end.

(** What [on_mouse_click] reads from the Qt event: whether the modifier is
    exactly Control, whether the scene position lies inside the plot, and
    the x coordinate the position maps to. *)
Record MouseEvent : Type := mkEvent {
  ctrl : bool; inside : bool; view_x : Q
}.

(** [PlotWindow.on_mouse_click] *)
Definition on_mouse_click (event : MouseEvent) (pw : nat) : UI unit :=
  if ctrl event then
    if inside event then
      let x := view_x event in
      modify (fun w => set_delta_points (delta_points w ++ [x]) w) ;;;
      modify (set_delta_plot (Some pw)) ;;;
      w <- get ;;
      (if (2 <? List.length (delta_points w))%nat
       then clear_delta_lines ;;; modify (set_delta_points [x])
       else ret tt) ;;;
      draw_delta_lines pw
    else ret tt
  else
    modify (fun w => set_cursor_locked (negb (cursor_locked w)) w) ;;;
    w <- get ;;
    modify (set_active_frame (frame_of (frames w) pw)) ;;;
    match frame_of (frames w) pw with
    | None => ret tt
    | Some af =>
        let x := view_x event in
        modify (set_current_time x) ;;;
        df <- or_raise AttributeError (data w) ;;
        times <- or_raise IndexError (time_column df) ;;
        idx <- or_raise ValueError (nearest_index times x) ;;
        _ <- or_raise IndexError (nth_error times idx) ;;
        ys <- or_raise KeyError (column df (var_name af)) ;;
        _ <- or_raise IndexError (nth_error ys idx) ;;
        _ <- or_raise KeyError (frame_cells df idx (frames w)) ;;
        update_top_label
    end.

(** ** ViewConfig and the creation of the plots *)

(** The window together with the files it works on and what it printed. *)
Record Session : Type := mkSession {
  window : PlotWindow;
  disk : Disk;
  stdout : list LogLine
}.

Definition on_window {A} (m : UI A) : St Session A :=
  fun s => let '(w', r) := m (window s) in
           (mkSession w' (disk s) (stdout s), r).

Definition print (l : LogLine) : St Session unit :=
  modify (fun s => mkSession (window s) (disk s) (stdout s ++ [l])).

(** [try: m  except Exception as e: ...]: the exception becomes a value. *)
Definition try_ {S A} (m : St S A) : St S (exn + A) :=
  fun s => let '(s', r) := m s in (s', inr r).

(** [dict.get(key, default)] on a key that may be absent. *)
Definition get_default {A} (o : option A) (default : A) : A :=
  match o with Some a => a | None => default end.

(** [json.load] of the configuration file. *)
Definition read_config (failing : bool) : St Session Config :=
  fun s => (s, snd (read failing CONFIG_FILE (disk s))).

(** [PlotWindow.load_plot_config] *)
Definition load_plot_config (failing : bool)
  : St Session (option (list string)) :=
  r <- try_ (config <- read_config failing ;;
             on_window (modify (set_current_time
                          (get_default (cfg_current_time config) 0))) ;;;
             on_window (modify (set_x_range
                          (Assigned (get_default (cfg_x_range config) None)))) ;;;
             ret (get_default (cfg_plot_order config) [])) ;;
  match r with
  | inr order => ret (Some order)
  | inl _ => print Debug_failed_to_load_config ;;; ret None
  end.

(** [self.data = self.load_data_window(...)] seen from the session. *)
Definition load_window (f : Faults) (fail_read_table : bool)
    (center_time w : Q) : St Session DataFrame :=
  fun s => let '(d', df, lg) :=
             load_data_window f fail_read_table center_time w (disk s) in
           (mkSession (window s) d' (stdout s ++ lg), inr df).

(** What the environment decides during [load_data_and_create_plots]: the
    faults of its two window loads and of the configuration read, and the
    relative padding the view box adds to a range set without
    [padding=0]. *)
Record LoadEnv : Type := mkLoadEnv {
  faults1 : Faults; fail_table1 : bool;
  fail_config : bool;
  faults2 : Faults; fail_table2 : bool;
  vb_padding : Q
}.

(** [vb.setXRange(lo, hi)] followed by [vb.viewRange()[0]]. *)
Definition view_range (padding lo hi : Q) : Q * Q :=
  (lo - padding * (hi - lo), hi + padding * (hi - lo)).

(** The frames that the loop over [plot_order] creates, numbering the new
    plot widgets from [n]. *)
Fixpoint new_frames (n : nat) (cols : list string) (order : list string)
  : list PlotFrame :=
  match order with
  | [] => []
  | col :: rest =>
      if existsb (String.eqb col) cols
      then mkFrame n col :: new_frames (S n) cols rest
      else new_frames n cols rest
  end.

(** [PlotWindow.load_data_and_create_plots].  The first part runs under the
    [try] of the method; [false] stands for its early [return] on an empty
    frame.  The loop that creates the plots runs outside of it: it raises
    IndexError on a frame without columns, and ValueError when the second
    load left no row, because [calculate_y_range] takes the minimum of an
    empty array for the first plot.  After [setXRange] with the saved range
    and no padding the view box is taken to answer the saved pair, which is
    what it does for a range with [xmin < xmax]. *)
Definition load_data_and_create_plots (env : LoadEnv) : St Session unit :=
  r <- try_ (
    w <- on_window get ;;
    df <- load_window (faults1 env) (fail_table1 env) (current_time w) 60 ;;
    on_window (modify (set_data (Some df))) ;;;
    if empty df then print Error_no_data ;;; ret false
    else
      saved <- load_plot_config (fail_config env) ;;
      on_window (modify (set_plot_order
                   (match saved with
                    | Some (c :: cs) => c :: cs
                    | _ => tl (columns df)
                    end))) ;;;
      w <- on_window get ;;
      xr <- match x_range w with
            | Unset => raise AttributeError
            | Assigned v => ret v
            end ;;
      let '(xmin, xmax) :=
        match xr with
        | Some range => range
        | None => view_range (vb_padding env)
                    (current_time w - 60) (current_time w + 60)
        end in
      let center := (xmin + xmax) / 2 in
      let half := (xmax - xmin) / 2 + 1 in
      df2 <- load_window (faults2 env) (fail_table2 env) center half ;;
      on_window (modify (set_data (Some df2))) ;;;
      ret true) ;;
  match r with
  | inl e => print (Error_failed_to_load_csv e)
  | inr false => ret tt
  | inr true =>
      w <- on_window get ;;
      df <- or_raise AttributeError (data w) ;;
      _ <- or_raise IndexError (time_column df) ;;
      let created :=
        new_frames (List.length (frames w)) (columns df) (plot_order w) in
      match created, rows df with
      | _ :: _, [] => raise ValueError
      | _, _ => on_window (modify (set_frames (frames w ++ created)))
      end
  end.

(** [PlotWindow()] on a disk: the constructor up to the creation of the
    plots. *)
Definition PlotWindow_new (env : LoadEnv) (d : Disk) : Session * (exn + unit) :=
  load_data_and_create_plots env (mkSession PlotWindow_init d []).

(** ** Pointer movement *)

(** [PlotWindow.handle_mouse_move]: [inside_plot] tells whether the plot of
    [frame] contains the position, [x_hover] is the x coordinate it maps
    to. *)
Definition handle_mouse_move (inside_plot : bool) (x_hover : Q)
    (frame : PlotFrame) : UI unit :=
  w <- get ;;
  match data w with
  | None => ret tt
  | Some df =>
      (if inside_plot && negb (cursor_locked w)
       then modify (set_current_time x_hover) ;;;
            modify (set_active_frame (Some frame))
       else ret tt) ;;;
      w1 <- get ;;
      times <- or_raise IndexError (time_column df) ;;
      idx <- or_raise ValueError (nearest_index times (current_time w1)) ;;
      _ <- or_raise IndexError (nth_error times idx) ;;
      _ <- or_raise KeyError (frame_cells df idx (frames w1)) ;;
      update_top_label
  end.

(** ** The y range of a plot *)

(** [np.min] and [np.max] of two cells: NaN wins. *)
Definition np_min2 (a b : float) : float :=
  match a, b with
  | Fin x, Fin y => Fin (if Qle_bool x y then x else y)
  | _, _ => NaN
  end.

Definition np_max2 (a b : float) : float :=
  match a, b with
  | Fin x, Fin y => Fin (if Qle_bool x y then y else x)
  | _, _ => NaN
  end.

(** [np.min(y)] and [np.max(y)]; [None] stands for the ValueError raised on
    an empty array. *)
Definition np_min (y : list float) : option float :=
  match y with
  | [] => None
  | a :: l => Some (fold_left np_min2 l a)
  end.

Definition np_max (y : list float) : option float :=
  match y with
  | [] => None
  | a :: l => Some (fold_left np_max2 l a)
  end.

(** The builtin [max(a, b)]: the second argument only when it is greater. *)
Definition py_max (a b : Q) : Q := if Qlt_bool a b then b else a.

(** [PlotWindow.calculate_y_range]; the factor 0.2 stands as 1/5. *)
Definition calculate_y_range (y : list float) : exn + (Q * Q) :=
  match np_min y, np_max y with
  | Some ymin, Some ymax =>
      match ymin, ymax with
      | Fin lo, Fin hi =>
          let padding := py_max (Qabs lo) (Qabs hi) * (1 # 5) in
          inr (lo - padding, hi + padding)
      | _, _ => inr (- (1 # 2), 3 # 2)
      end
  | _, _ => inl ValueError
  end.

(** ** Downsampling before a redraw *)

(** [l[::stride]] in the middle of its scan: [k] more elements are skipped
    before the next one is kept. *)
Fixpoint every_from {A} (stride k : nat) (l : list A) : list A :=
  match l with
  | [] => []
  | a :: l' =>
      match k with
      | O => a :: every_from stride (stride - 1) l'
      | S k' => every_from stride k' l'
      end
  end.

(** The downsampling of one axis in [PlotWindow.redraw_all_plots]:
    [stride = len(x) // max_points; x_ds = x[::stride]] when the array is
    longer than [max_points].  [None] stands for the ZeroDivisionError of a
    window of width 0. *)
Definition downsample {A} (max_points : nat) (x : list A) : option (list A) :=
  if (max_points <? List.length x)%nat then
    match max_points with
    | O => None
    | S _ => Some (every_from (List.length x / max_points) 0 x)
    end
  else Some x.

(** ** Saving the view configuration *)

(** How the write of the configuration may fail: when the file is opened,
    before anything is written, or after the open, which has already
    truncated the file ([json.dump] raising on a value, a full disk); the
    text left behind is no JSON document. *)
Inductive WriteFault : Type :=
| WriteOk
| FailsAtOpen
| FailsAfterOpen (e : exn).

Definition set_config (c : file Config) (s : Session) : Session :=
  mkSession (window s)
    (mkDisk (CSV_FILE (disk s)) (PARQUET_FILE (disk s)) (TIME_FILE (disk s)) c)
    (stdout s).

(** [with open(CONFIG_FILE, 'w') as f: json.dump(config, f)] *)
Definition write_config (fault : WriteFault) (c : Config) : St Session unit :=
  fun s => match fault with
           | WriteOk => (set_config (Holds c) s, inr tt)
           | FailsAtOpen => (s, inl OSError)
           | FailsAfterOpen e => (set_config Garbled s, inl e)
           end.

(** [PlotWindow.save_plot_config].  [first_view] is the x range that the
    view box of [self.plot_widgets[0]] reports, [None] when no plot widget
    exists (the IndexError of the subscript).  It answers the exception that
    it printed, if any. *)
Definition save_plot_config (fault : WriteFault) (first_view : option (Q * Q))
  : St Session (option exn) :=
  r <- try_ (range <- or_raise IndexError first_view ;;
             w <- on_window get ;;
             write_config fault
               (mkConfig (Some (plot_order w)) (Some (current_time w))
                         (Some (Some range)))) ;;
  match r with
  | inr _ => ret None
  | inl e => ret (Some e)
  end.

(** * Vocabulary of the statements *)

Definition time_le (a b : Row) : Prop := time a <= time b.

(** Rows in ascending (non-decreasing) time order. *)
Definition sorted_by_time (l : list Row) : Prop := Sorted time_le l.

(** The rows that a refresh regards as new under the mark [h]. *)
Definition new_rows (src : DataFrame) (h : float) : list Row :=
  filter (fun r => gt_float (time r) h) (rows src).

(** The source holds no row above the high-water mark. *)
Definition no_new_rows (d : Disk) : Prop :=
  forall src h, CSV_FILE d = Holds src -> TIME_FILE d = Holds h ->
                new_rows src h = [].

(** The last-time file did not go down from [a] to [b]: it is the same file,
    or both hold finite marks and the second is at least the first. *)
Definition mark_le (a b : file float) : Prop :=
  a = b \/ exists h m, a = Holds (Fin h) /\ b = Holds (Fin m) /\ h <= m.

(** A finite mark is reached by some row of the cache. *)
Definition mark_reached (d : Disk) : Prop :=
  forall h, TIME_FILE d = Holds (Fin h) ->
    exists cache r, PARQUET_FILE d = Holds cache /\ In r (rows cache) /\
                    h <= time r.

(** A finite mark does not exceed the maximum time of the cache. *)
Definition mark_within_cache (d : Disk) : Prop :=
  forall h, TIME_FILE d = Holds (Fin h) ->
    exists cache m, PARQUET_FILE d = Holds cache /\
                    time_max cache = Fin m /\ h <= m.

(** What happens to the files during the life of an installation: the
    monitored process rewrites the source log, the viewer is launched (the
    start-up code runs, to its end or to an uncaught exception), or a
    running viewer refreshes. *)
Inductive Event : Type :=
| SourceWritten (src : file DataFrame)
| Launch (f : Faults)
| Refresh (f : Faults).

Definition set_csv (src : file DataFrame) (d : Disk) : Disk :=
  mkDisk src (PARQUET_FILE d) (TIME_FILE d) (CONFIG_FILE d).

Definition step (d : Disk) (e : Event) : Disk :=
  match e with
  | SourceWritten src => set_csv src d
  | Launch f => fst (main_bootstrap f d)
  | Refresh f => fst (refresh_parquet_from_csv f d)
  end.

Definition run (es : list Event) (d : Disk) : Disk := fold_left step es d.

(** A sequence of refreshes, the source being rewritten at will before each
    of them. *)
Definition refreshes (rs : list (file DataFrame * Faults)) (d : Disk) : Disk :=
  fold_left (fun d r => fst (refresh_parquet_from_csv (snd r)
                                (set_csv (fst r) d))) rs d.

(** A first installation: neither cache nor last-time file. *)
Definition fresh (src : file DataFrame) (cfg : file Config) : Disk :=
  mkDisk src Missing Missing cfg.

(** [k] is a change point of a channel: the value at row [k] differs from
    the value of the row before it. *)
Definition change_point (values : list Q) (k : nat) : Prop :=
  exists j a b, k = S j /\ nth_error values j = Some a /\
                nth_error values (S j) = Some b /\ ~ a == b.

(** [k] is the smallest change point of the channel of frame [f] that is
    greater than [idx]. *)
Definition next_edge (df : DataFrame) (idx : nat) (f : PlotFrame) (k : nat)
  : Prop :=
  exists values,
    column df (var_name f) = Some values /\
    change_point values k /\ (idx < k)%nat /\
    forall k', change_point values k' -> (idx < k')%nat -> (k <= k')%nat.

(** [k] is the largest change point of the channel of frame [f] that is
    less than [idx]. *)
Definition prev_edge (df : DataFrame) (idx : nat) (f : PlotFrame) (k : nat)
  : Prop :=
  exists values,
    column df (var_name f) = Some values /\
    change_point values k /\ (k < idx)%nat /\
    forall k', change_point values k' -> (k' < idx)%nat -> (k' <= k)%nat.

(** The edge that a frame offers in the direction of the jump. *)
Definition edge (direction : Z) : DataFrame -> nat -> PlotFrame -> nat -> Prop :=
  if (direction >? 0)%Z then next_edge else prev_edge.

(** [k] comes no later than [k'] in the direction of the jump. *)
Definition before (direction : Z) (k k' : nat) : Prop :=
  if (direction >? 0)%Z then (k <= k')%nat else (k' <= k)%nat.

(** A computation that leaves one attribute of the window as it was. *)
Definition keeps {X A : Type} (attribute : PlotWindow -> X) (m : UI A) : Prop :=
  forall w, attribute (fst (m w)) = attribute w.

(** The cache is in ascending time order and no row of it lies above a
    finite mark. *)
Definition cache_in_order (d : Disk) : Prop :=
  exists cache,
    PARQUET_FILE d = Holds cache /\ sorted_by_time (rows cache) /\
    forall h, TIME_FILE d = Holds (Fin h) ->
              forall r, In r (rows cache) -> time r <= h.

(** * Sample data *)

(** A row with one channel. *)
Definition sample (t v : Q) : Row := mkRow t [v].

(** A source log with a header [t,A] and three samples. *)
Definition source3 : DataFrame :=
  mkDF ["t"; "A"]%string [sample 0 0; sample 1 0; sample 2 1].

(** The same log after the monitored process appended two samples. *)
Definition source5 : DataFrame :=
  mkDF ["t"; "A"]%string
       [sample 0 0; sample 1 0; sample 2 1; sample 3 1; sample 4 0].

Definition cache3 : DataFrame :=
  mkDF ["time"; "A"]%string [sample 0 0; sample 1 0; sample 2 1].

(** The disk once [source3] has been ingested and nothing was appended. *)
Definition disk_in_sync : Disk :=
  mkDisk (Holds source3) (Holds cache3) (Holds (Fin 2)) Missing.

(** The disk once [source3] has been ingested and the source went on to
    [source5]. *)
Definition disk_behind : Disk :=
  mkDisk (Holds source5) (Holds cache3) (Holds (Fin 2)) Missing.

(** Only the write of the last-time file fails. *)
Definition time_write_fails : Faults := mkFaults false false false false true.

(** A frame with one channel [A] = 0,0,1,1,0,0 at the times 0..5. *)
Definition edge_frame : DataFrame :=
  mkDF ["time"; "A"]%string
       [sample 0 0; sample 1 0; sample 2 1; sample 3 1; sample 4 0; sample 5 0].

(** A window showing [edge_frame], the cursor at time 0. *)
Definition edge_window : PlotWindow :=
  set_frames [mkFrame 0 "A"] (set_data (Some edge_frame) PlotWindow_init).

(** A frame with two channels, [A] = 0..5 and [B] = 10,10,30,30,50,50, at
    the times 0..5. *)
Definition two_channel_frame : DataFrame :=
  mkDF ["time"; "A"; "B"]%string
       [mkRow 0 [0; 10]; mkRow 1 [1; 10]; mkRow 2 [2; 30];
        mkRow 3 [3; 30]; mkRow 4 [4; 50]; mkRow 5 [5; 50]].

(** A window showing both channels, plot 0 for [A] and plot 1 for [B]. *)
Definition two_plot_window : PlotWindow :=
  set_frames [mkFrame 0 "A"; mkFrame 1 "B"]
             (set_data (Some two_channel_frame) PlotWindow_init).

(** A Control-click inside a plot at the x position [x]: [addPoint]. *)
Definition ctrl_click (x : Q) : MouseEvent := mkEvent true true x.

(** The window after the event [ev] on the plot [pw]. *)
Definition after_click (ev : MouseEvent) (pw : nat) (w : PlotWindow)
  : PlotWindow := fst (on_mouse_click ev pw w).

(** An environment in which no I/O operation fails. *)
Definition quiet_env : LoadEnv :=
  mkLoadEnv no_faults false false no_faults false (1 # 50).

(** An up-to-date cache next to a configuration file that is not JSON. *)
Definition disk_bad_config : Disk :=
  mkDisk (Holds source3) (Holds cache3) (Holds (Fin 2)) Garbled.

(** The same next to the configuration [{}]. *)
Definition disk_bare_config : Disk :=
  mkDisk (Holds source3) (Holds cache3) (Holds (Fin 2))
         (Holds (mkConfig None None None)).

(** A source log with a header and no sample yet. *)
Definition source0 : DataFrame := mkDF ["t"; "A"]%string [].

(** A first installation next to [source0]. *)
Definition disk_first_empty : Disk := mkDisk (Holds source0) Missing Missing Missing.

(** A cache whose last-time file was deleted, next to the longer source. *)
Definition disk_mark_lost : Disk :=
  mkDisk (Holds source5) (Holds cache3) Missing Missing.

(** A log whose times start far from 0, fully ingested. *)
Definition late_frame : DataFrame :=
  mkDF ["time"; "A"]%string [sample 1000 0; sample 1001 1].

(** The disk of that log, with a configuration that points into it. *)
Definition disk_late : Disk :=
  mkDisk (Holds late_frame) (Holds late_frame) (Holds (Fin 1001))
         (Holds (mkConfig (Some ["A"%string]) (Some 1000)
                          (Some (Some (1000, 1001))))).

(** [disk_in_sync] with a saved configuration for the x range 1..2. *)
Definition disk_configured : Disk :=
  mkDisk (Holds source3) (Holds cache3) (Holds (Fin 2))
         (Holds (mkConfig (Some ["A"%string]) (Some 1) (Some (Some (1, 2))))).

(** * Properties of the columnar cache *)

Lemma Qlt_bool_iff (x y : Q) : Qlt_bool x y = true <-> x < y.
Proof.
  unfold Qlt_bool. rewrite negb_true_iff.
  split; intro H.
  - apply Qnot_le_lt. intro Hle. apply Qle_bool_iff in Hle. congruence.
  - destruct (Qle_bool y x) eqn:E; [|reflexivity].
    apply Qle_bool_iff in E. exfalso. apply (Qlt_not_le _ _ H E).
Qed.

Lemma Qlt_bool_false_iff (x y : Q) : Qlt_bool x y = false <-> y <= x.
Proof.
  unfold Qlt_bool. rewrite negb_false_iff. apply Qle_bool_iff.
Qed.

Lemma Qmax2_cases (a b : Q) :
  (Qmax2 a b = b /\ a <= b) \/ (Qmax2 a b = a /\ b <= a).
Proof.
  unfold Qmax2. destruct (Qle_bool a b) eqn:E.
  - left. split; [reflexivity | now apply Qle_bool_iff].
  - right. split; [reflexivity|].
    apply Qlt_le_weak. apply Qlt_bool_iff. unfold Qlt_bool. now rewrite E.
Qed.

Lemma fold_max_spec (rs : list Row) (m0 : Q) :
  let m := fold_left (fun m r' => Qmax2 m (time r')) rs m0 in
  m0 <= m /\ (forall r, In r rs -> time r <= m) /\
  (m = m0 \/ exists r, In r rs /\ time r = m).
Proof.
  revert m0. induction rs as [|r rs IH]; intros m0; cbn.
  - repeat split; [apply Qle_refl | tauto | now left].
  - destruct (IH (Qmax2 m0 (time r))) as (H1 & H2 & H3).
    destruct (Qmax2_cases m0 (time r)) as [[E L] | [E L]]; rewrite E in *.
    + repeat split.
      * eapply Qle_trans; eassumption.
      * intros r' [<- | Hin]; [assumption | now apply H2].
      * right. destruct H3 as [-> | (r' & Hin & Hr')]; eauto.
    + repeat split.
      * assumption.
      * intros r' [<- | Hin]; [eapply Qle_trans; eassumption | now apply H2].
      * destruct H3 as [-> | (r' & Hin & Hr')]; [now left | right; eauto].
Qed.

(** The maximum of a non-empty time column is the time of one of its rows
    and bounds all of them. *)
Lemma time_max_spec (df : DataFrame) :
  rows df <> [] ->
  exists r, In r (rows df) /\ time_max df = Fin (time r) /\
            forall r', In r' (rows df) -> time r' <= time r.
Proof.
  unfold time_max. destruct (rows df) as [|r0 rs]; [congruence|]. intros _.
  destruct (fold_max_spec rs (time r0)) as (H1 & H2 & H3). cbn in *.
  destruct H3 as [E | (r & Hin & E)].
  - exists r0. rewrite E. repeat split; [now left|].
    intros r' [<- | Hin]; [apply Qle_refl|]. rewrite <- E. now apply H2.
  - exists r. rewrite E. repeat split; [now right|].
    intros r' [<- | Hin']; [assumption | now apply H2].
Qed.

Lemma time_max_nil (df : DataFrame) : rows df = [] -> time_max df = NaN.
Proof. unfold time_max. now intros ->. Qed.

Lemma filter_nil_iff {A} (p : A -> bool) (l : list A) :
  filter p l = [] <-> forall a, In a l -> p a = false.
Proof.
  induction l as [|a l IH]; cbn.
  - tauto.
  - destruct (p a) eqn:E; split.
    + discriminate.
    + intros H. specialize (H a (or_introl eq_refl)). congruence.
    + intros H b [<- | Hb]; [assumption | now apply IH].
    + intros H. apply IH. intros b Hb. apply H. now right.
Qed.

Lemma filter_all {A} (p : A -> bool) (l : list A) :
  (forall a, In a l -> p a = true) -> filter p l = l.
Proof.
  induction l as [|a l IH]; cbn; intros H; [reflexivity|].
  rewrite (H a (or_introl eq_refl)). f_equal. apply IH. intros; apply H. now right.
Qed.

Lemma time_max_rows (a b : DataFrame) :
  rows a = rows b -> time_max a = time_max b.
Proof. unfold time_max. now intros ->. Qed.

(** What one incremental update can do to the disk: nothing (an error before
    the first write, or no new row), or the append to the cache, followed
    either by the advance of the mark or by the failure of its write. *)
Lemma incremental_update_cases (f : Faults) (d : Disk) :
  let '(d', r) := incremental_update f d in
  (d' = d /\ r <> inr true) \/
  (exists h src cache,
      TIME_FILE d = Holds h /\ CSV_FILE d = Holds src /\
      PARQUET_FILE d = Holds cache /\ new_rows src h <> [] /\
      CSV_FILE d' = CSV_FILE d /\ CONFIG_FILE d' = CONFIG_FILE d /\
      PARQUET_FILE d' = Holds (mkDF (columns cache)
                                    (rows cache ++ new_rows src h)) /\
      ((TIME_FILE d' = TIME_FILE d /\ r = inl OSError /\
        fail_write_time f = true) \/
       (TIME_FILE d' = Holds (time_max src) /\ r = inr true))).
Proof.
  unfold incremental_update, read_csv, rename_time, bind, read.
  destruct (fail_read_time f); [left; split; [reflexivity | discriminate]|].
  destruct (TIME_FILE d) as [| |h] eqn:Eh;
    try (left; split; [reflexivity | discriminate]).
  destruct (fail_read_csv f); [left; split; [reflexivity | discriminate]|].
  destruct (CSV_FILE d) as [| |src] eqn:Es;
    try (left; split; [reflexivity | discriminate]).
  destruct (columns src) as [|c0 cs] eqn:Ec; cbn;
    [left; split; [reflexivity | discriminate]|].
  unfold empty, select_gt; cbn [rows columns].
  fold (new_rows src h).
  destruct (new_rows src h) as [|r0 rs] eqn:En; cbn;
    [left; split; [reflexivity | discriminate]|].
  destruct (fail_read_parquet f); [left; split; [reflexivity | discriminate]|].
  destruct (PARQUET_FILE d) as [| |cache] eqn:Ep;
    try (left; split; [reflexivity | discriminate]).
  unfold write_parquet, write_time.
  destruct (fail_write_parquet f); [left; split; [reflexivity | discriminate]|].
  destruct (fail_write_time f) eqn:Ew; cbn; right; exists h, src, cache;
    unfold concat; cbn [rows columns];
    rewrite ?En; repeat split; try discriminate; auto.
Qed.

(** The disk after a refresh is the disk after its incremental update, or
    the same disk when the source or the last-time file is absent. *)
Lemma refresh_disk (f : Faults) (d : Disk) :
  fst (refresh_parquet_from_csv f d) = d \/
  fst (refresh_parquet_from_csv f d) = fst (incremental_update f d).
Proof.
  unfold refresh_parquet_from_csv.
  destruct (negb (exists_ (CSV_FILE d)) || negb (exists_ (TIME_FILE d)));
    [now left|].
  right. destruct (incremental_update f d) as [d' [e | [|]]]; reflexivity.
Qed.

(** When an update advances the mark, the old mark is finite and the new one
    is the time of a new row above it. *)
Lemma new_rows_max (src : DataFrame) (h : float) :
  new_rows src h <> [] ->
  exists hq r, h = Fin hq /\ In r (new_rows src h) /\
               time_max src = Fin (time r) /\ hq < time r.
Proof.
  intros Hne.
  destruct (new_rows src h) as [|r0 rs] eqn:En; [congruence|]. clear Hne.
  assert (Hr0 : In r0 (new_rows src h)) by (rewrite En; now left).
  unfold new_rows in Hr0. apply filter_In in Hr0 as [Hin0 Hgt0].
  destruct h as [hq|]; [|discriminate]. cbn in Hgt0.
  apply Qlt_bool_iff in Hgt0.
  destruct (time_max_spec src) as (r & Hin & Hmax & Hle).
  { intro E. rewrite E in Hin0. inversion Hin0. }
  assert (Hlt : hq < time r).
  { eapply Qlt_le_trans; [exact Hgt0 | now apply Hle]. }
  exists hq, r. repeat split; auto.
  rewrite <- En. unfold new_rows. apply filter_In. split; [assumption|].
  cbn. now apply Qlt_bool_iff.
Qed.

(** ** C2: a refresh without new rows changes nothing *)

Lemma refresh_no_new_rows (f : Faults) (d : Disk) :
  no_new_rows d -> fst (refresh_parquet_from_csv f d) = d.
Proof.
  intros Hno. destruct (refresh_disk f d) as [E | E]; [assumption|].
  rewrite E. pose proof (incremental_update_cases f d) as H.
  destruct (incremental_update f d) as [d' r]; cbn.
  destruct H as [[H _] | (h & src & cache & Hh & Hs & _ & Hne & _)];
    [assumption|].
  exfalso. apply Hne. now apply Hno.
Qed.

(** C2.  When the source holds no row with a time above the high-water
    mark, two refreshes in succession, whatever fails in either of them,
    each leave the whole disk, and so the columnar cache and the last-time
    file, exactly as it was. *)
Theorem refresh_idempotent (f1 f2 : Faults) (d : Disk) :
  no_new_rows d ->
  let d1 := fst (refresh_parquet_from_csv f1 d) in
  let d2 := fst (refresh_parquet_from_csv f2 d1) in
  d1 = d /\ d2 = d /\
  PARQUET_FILE d2 = PARQUET_FILE d /\ TIME_FILE d2 = TIME_FILE d.
Proof.
  intros Hno d1 d2.
  assert (E1 : d1 = d) by now apply refresh_no_new_rows.
  assert (E2 : d2 = d).
  { unfold d2. rewrite E1. now apply refresh_no_new_rows. }
  rewrite E2. auto.
Qed.

Lemma refresh_idempotent_witness :
  no_new_rows disk_in_sync /\
  fst (refresh_parquet_from_csv no_faults
         (fst (refresh_parquet_from_csv time_write_fails disk_in_sync)))
  = disk_in_sync.
Proof.
  assert (H : no_new_rows disk_in_sync).
  { intros src h E1 E2. injection E1 as <-. injection E2 as <-. reflexivity. }
  split; [exact H|].
  exact (proj1 (proj2 (refresh_idempotent time_write_fails no_faults
                         disk_in_sync H))).
Defined.

(** ** C5: what a failing refresh leaves behind *)

(** C5, as stated, fails.  With two rows to ingest and a last-time file that
    cannot be written, the refresh reports a failure after it has written
    the extended cache back: the cache is changed, the mark is not. *)
Lemma refresh_failure_not_atomic :
  snd (refresh_parquet_from_csv time_write_fails disk_behind)
    = [Error_refresh_failed OSError] /\
  PARQUET_FILE (fst (refresh_parquet_from_csv time_write_fails disk_behind))
    = Holds (mkDF (columns cache3)
                  (rows cache3 ++ [sample 3 1; sample 4 0])) /\
  PARQUET_FILE (fst (refresh_parquet_from_csv time_write_fails disk_behind))
    <> PARQUET_FILE disk_behind /\
  TIME_FILE (fst (refresh_parquet_from_csv time_write_fails disk_behind))
    = TIME_FILE disk_behind.
Proof.
  repeat split; try reflexivity.
  vm_compute. discriminate.
Qed.

(** A refresh that reports a failure. *)
Lemma refresh_failure_cases (f : Faults) (d : Disk) (e : exn) :
  snd (refresh_parquet_from_csv f d) = [Error_refresh_failed e] ->
  TIME_FILE (fst (refresh_parquet_from_csv f d)) = TIME_FILE d /\
  CSV_FILE (fst (refresh_parquet_from_csv f d)) = CSV_FILE d /\
  (fst (refresh_parquet_from_csv f d) = d \/
   (fail_write_time f = true /\ e = OSError /\
    exists h src cache,
      TIME_FILE d = Holds h /\ CSV_FILE d = Holds src /\
      PARQUET_FILE d = Holds cache /\
      PARQUET_FILE (fst (refresh_parquet_from_csv f d))
        = Holds (mkDF (columns cache) (rows cache ++ new_rows src h)))).
Proof.
  unfold refresh_parquet_from_csv.
  destruct (negb (exists_ (CSV_FILE d)) || negb (exists_ (TIME_FILE d)));
    [discriminate|].
  pose proof (incremental_update_cases f d) as H.
  destruct (incremental_update f d) as [d' [e' | [|]]]; cbn;
    try discriminate.
  intros He. injection He as <-.
  destruct H as [[-> _] | (h & src & cache & Hh & Hs & Hp & Hne & Hc & _ & Hp'
                            & [(Ht & He & Hf) | (_ & He)])].
  - repeat split; auto.
  - injection He as ->. repeat split; auto.
    right. repeat split; auto. exists h, src, cache. auto.
  - discriminate.
Qed.

(** C5, amended, for the failures of [Faults]: a read that fails, and a
    write that fails when its file is opened, before anything of it is
    written.  A write that breaks off after its file was opened leaves that
    file truncated; such a failure is outside [Faults] and outside this
    statement.  A refresh has no outcome other than a disk and the lines it
    printed: an exception of its body ends in the log line.  When the source
    or the last-time file is absent it returns at once, the disk untouched.
    When it reports one of these failures it has touched neither the
    last-time file nor the source, and it leaves the whole disk as it was
    unless the step that failed is the opening of the last-time file for
    writing, which comes after the write-back of the cache: then the cache
    holds the appended rows and the mark is not advanced. *)
Theorem refresh_failure_effect :
  (forall (f : Faults) (d : Disk),
      CSV_FILE d = Missing \/ TIME_FILE d = Missing ->
      refresh_parquet_from_csv f d = (d, [])) /\
  (forall (f : Faults) (d : Disk) (e : exn),
      snd (refresh_parquet_from_csv f d) = [Error_refresh_failed e] ->
      TIME_FILE (fst (refresh_parquet_from_csv f d)) = TIME_FILE d /\
      CSV_FILE (fst (refresh_parquet_from_csv f d)) = CSV_FILE d /\
      (fail_write_time f = false -> fst (refresh_parquet_from_csv f d) = d) /\
      (fst (refresh_parquet_from_csv f d) = d \/
       (fail_write_time f = true /\ e = OSError /\
        exists h src cache,
          TIME_FILE d = Holds h /\ CSV_FILE d = Holds src /\
          PARQUET_FILE d = Holds cache /\
          PARQUET_FILE (fst (refresh_parquet_from_csv f d))
            = Holds (mkDF (columns cache) (rows cache ++ new_rows src h))))).
Proof.
  split.
  - intros f d [H | H]; unfold refresh_parquet_from_csv; rewrite H;
      [reflexivity|]. now rewrite orb_true_r.
  - intros f d e He.
    destruct (refresh_failure_cases f d e He) as (Ht & Hs & Hcases).
    repeat split; auto.
    intros Hf. destruct Hcases as [E | (Hf' & _)]; [exact E | congruence].
Qed.

Lemma refresh_failure_effect_witness :
  snd (refresh_parquet_from_csv time_write_fails disk_behind)
    = [Error_refresh_failed OSError] /\
  TIME_FILE (fst (refresh_parquet_from_csv time_write_fails disk_behind))
    = Holds (Fin 2).
Proof.
  split; [reflexivity|].
  exact (proj1 (proj2 refresh_failure_effect time_write_fails disk_behind
                  OSError eq_refl)).
Defined.

(** ** C3: the high-water mark never goes down and stays within the cache *)

Lemma mark_le_refl (a : file float) : mark_le a a.
Proof. now left. Qed.

Lemma mark_le_trans (a b c : file float) :
  mark_le a b -> mark_le b c -> mark_le a c.
Proof.
  intros [-> | (h & m & -> & -> & Hhm)] [<- | (h' & m' & E & -> & Hhm')].
  - now left.
  - right. eauto.
  - right. eauto.
  - injection E as <-. right. exists h, m'. repeat split.
    eapply Qle_trans; eassumption.
Qed.

Lemma incremental_update_mark_le (f : Faults) (d : Disk) :
  mark_le (TIME_FILE d) (TIME_FILE (fst (incremental_update f d))).
Proof.
  pose proof (incremental_update_cases f d) as H.
  destruct (incremental_update f d) as [d' r]; cbn.
  destruct H as [[-> _] | (h & src & cache & Hh & _ & _ & Hne & _ & _ & _
                           & [(Ht & _) | (Ht & _)])].
  - apply mark_le_refl.
  - rewrite Ht. apply mark_le_refl.
  - destruct (new_rows_max src h Hne) as (hq & r' & -> & _ & Hmax & Hlt).
    right. exists hq, (time r'). rewrite Hh, Ht, Hmax.
    repeat split. now apply Qlt_le_weak.
Qed.

Lemma refresh_mark_le (f : Faults) (d : Disk) :
  mark_le (TIME_FILE d) (TIME_FILE (fst (refresh_parquet_from_csv f d))).
Proof.
  destruct (refresh_disk f d) as [-> | ->].
  - apply mark_le_refl.
  - apply incremental_update_mark_le.
Qed.

Lemma refreshes_mark_le (rs : list (file DataFrame * Faults)) (d : Disk) :
  mark_le (TIME_FILE d) (TIME_FILE (refreshes rs d)).
Proof.
  revert d. induction rs as [|[src f] rs IH]; intros d; cbn.
  - apply mark_le_refl.
  - eapply mark_le_trans; [|apply IH]. cbn.
    apply (refresh_mark_le f (set_csv src d)).
Qed.

Lemma incremental_update_within (f : Faults) (d : Disk) :
  mark_reached d -> mark_reached (fst (incremental_update f d)).
Proof.
  intros Inv.
  pose proof (incremental_update_cases f d) as H.
  destruct (incremental_update f d) as [d' r]; cbn.
  destruct H as [[-> _] | (h & src & cache & Hh & _ & Hp & Hne & _ & _ & Hp'
                           & [(Ht & _) | (Ht & _)])].
  - assumption.
  - intros m Hm. rewrite Ht in Hm.
    destruct (Inv m Hm) as (cache0 & r0 & Hc0 & Hin & Hle).
    rewrite Hp in Hc0. injection Hc0 as <-.
    eexists _, r0. split; [exact Hp'|]. split; [|assumption].
    cbn. apply in_or_app. now left.
  - intros m Hm. rewrite Ht in Hm.
    destruct (new_rows_max src h Hne) as (hq & r' & _ & Hin & Hmax & _).
    rewrite Hmax in Hm. injection Hm as <-.
    eexists _, r'. split; [exact Hp'|]. split; [|apply Qle_refl].
    cbn. apply in_or_app. now right.
Qed.

Lemma refresh_within (f : Faults) (d : Disk) :
  mark_reached d ->
  mark_reached (fst (refresh_parquet_from_csv f d)).
Proof.
  intros Inv. destruct (refresh_disk f d) as [-> | ->];
    [assumption | now apply incremental_update_within].
Qed.

(** With both files present the start-up code does to the disk what a
    refresh does. *)
Lemma bootstrap_incremental (f : Faults) (d : Disk) :
  negb (exists_ (PARQUET_FILE d)) || negb (exists_ (TIME_FILE d)) = false ->
  fst (main_bootstrap f d) = fst (incremental_update f d).
Proof.
  intros Hc. unfold main_bootstrap. rewrite Hc.
  unfold incremental_update, read_csv, rename_time, bind, read.
  destruct (fail_read_time f); [reflexivity|].
  destruct (TIME_FILE d) as [| |h]; try reflexivity.
  destruct (fail_read_csv f); [reflexivity|].
  destruct (CSV_FILE d) as [| |src]; try reflexivity.
  destruct (columns src) as [|c0 cs]; [reflexivity|]. cbn.
  destruct (empty _); cbn; [reflexivity|].
  destruct (fail_read_parquet f); [reflexivity|].
  destruct (PARQUET_FILE d) as [| |cache]; try reflexivity.
  unfold write_parquet, write_time.
  destruct (fail_write_parquet f); [reflexivity|].
  destruct (fail_write_time f); reflexivity.
Qed.

Lemma bootstrap_within (f : Faults) (d : Disk) :
  mark_reached d -> mark_reached (fst (main_bootstrap f d)).
Proof.
  intros Inv.
  destruct (negb (exists_ (PARQUET_FILE d)) || negb (exists_ (TIME_FILE d)))
    eqn:Hc.
  2: { rewrite bootstrap_incremental by assumption.
       now apply incremental_update_within. }
  unfold main_bootstrap. rewrite Hc.
  unfold read_csv, rename_time, bind, read.
  destruct (fail_read_csv f); [assumption|].
  destruct (CSV_FILE d) as [| |src]; try assumption.
  destruct (columns src) as [|c0 cs]; [assumption|]. cbn.
  unfold write_parquet, write_time.
  destruct (fail_write_parquet f); [assumption|].
  destruct (fail_write_time f); cbn.
  - (* the cache was written, the old last-time file is still there *)
    intros m Hm. cbn in Hm.
    destruct (Inv m Hm) as (cache0 & r0 & Hc0 & _).
    rewrite Hc0, Hm in Hc. discriminate.
  - intros m Hm. cbn in Hm. injection Hm as Hm.
    destruct (rows src) as [|r0 rs] eqn:Er.
    + unfold time_max in Hm. cbn in Hm. discriminate.
    + destruct (time_max_spec (mkDF ("time"%string :: cs) (r0 :: rs)))
        as (r & Hin & Hmax & _); [discriminate|].
      rewrite Hmax in Hm. injection Hm as <-.
      eexists _, r. cbn. split; [reflexivity|]. split; [exact Hin|].
      apply Qle_refl.
Qed.

Lemma run_within (es : list Event) (d : Disk) :
  mark_reached d -> mark_reached (run es d).
Proof.
  revert d. induction es as [|e es IH]; intros d Inv; cbn; [assumption|].
  apply IH. destruct e as [src | f | f]; cbn.
  - exact Inv.
  - now apply bootstrap_within.
  - now apply refresh_within.
Qed.

Lemma mark_within_cache_iff (d : Disk) :
  mark_within_cache d <-> mark_reached d.
Proof.
  split; intros H h Hh.
  - destruct (H h Hh) as (cache & m & Hc & Hm & Hle).
    destruct (rows cache) as [|r0 rs] eqn:Er.
    + rewrite time_max_nil in Hm by assumption. discriminate.
    + destruct (time_max_spec cache) as (r & Hin & Hmax & _);
        [congruence|].
      rewrite Hmax in Hm. injection Hm as <-. eauto.
  - destruct (H h Hh) as (cache & r & Hc & Hin & Hle).
    destruct (time_max_spec cache) as (rm & _ & Hmax & Hall).
    { intro E. rewrite E in Hin. inversion Hin. }
    exists cache, (time rm). repeat split; auto.
    eapply Qle_trans; [exact Hle | now apply Hall].
Qed.

(** C3.  Along any sequence of refreshes, the source being rewritten at will
    between them and any step of any refresh failing, the last-time file
    never goes down: the mark after the first [rs1] refreshes is at most the
    mark after the further [rs2].  In every state that a first installation
    reaches through launches, refreshes and changes of the source, a finite
    mark is at most the maximum time of the cache; the start-up code and the
    refresh each keep that property, to whatever point they run. *)
Theorem high_water_mark_invariant :
  (forall (rs1 rs2 : list (file DataFrame * Faults)) (d : Disk),
      mark_le (TIME_FILE (refreshes rs1 d))
              (TIME_FILE (refreshes (rs1 ++ rs2) d))) /\
  (forall (src : file DataFrame) (cfg : file Config) (es : list Event),
      mark_within_cache (run es (fresh src cfg))) /\
  (forall (f : Faults) (d : Disk),
      mark_within_cache d ->
      mark_within_cache (fst (main_bootstrap f d)) /\
      mark_within_cache (fst (refresh_parquet_from_csv f d))).
Proof.
  split; [|split].
  - intros rs1 rs2 d. unfold refreshes at 2. rewrite fold_left_app.
    apply refreshes_mark_le.
  - intros src cfg es. apply mark_within_cache_iff, run_within.
    intros h Hh. discriminate.
  - intros f d Inv. apply mark_within_cache_iff in Inv.
    split; apply mark_within_cache_iff;
      [now apply bootstrap_within | now apply refresh_within].
Qed.

(** ** C1: no row is lost when the source grows *)

(** An update in which nothing fails. *)
Lemma incremental_update_ok (d : Disk) (h : float) (src cache : DataFrame) :
  TIME_FILE d = Holds h -> CSV_FILE d = Holds src -> columns src <> [] ->
  PARQUET_FILE d = Holds cache ->
  incremental_update no_faults d =
  match new_rows src h with
  | [] => (d, inr false)
  | _ :: _ =>
      (mkDisk (CSV_FILE d)
              (Holds (mkDF (columns cache) (rows cache ++ new_rows src h)))
              (Holds (time_max src)) (CONFIG_FILE d), inr true)
  end.
Proof.
  intros Hh Hs Hc Hp.
  unfold incremental_update, read_csv, rename_time, bind, read; cbn.
  rewrite Hh; cbn. rewrite Hs; cbn.
  destruct (columns src) as [|c0 cs]; [congruence|]. cbn.
  unfold empty, select_gt; cbn [rows columns]. fold (new_rows src h).
  destruct (new_rows src h) as [|r0 rs]; cbn; [reflexivity|].
  rewrite Hp. cbn. rewrite ?Hs, ?Hh.
  reflexivity.
Qed.

(** No row of a frame compares greater than the maximum of its time column. *)
Lemma not_gt_time_max (df : DataFrame) (r : Row) :
  In r (rows df) -> gt_float (time r) (time_max df) = false.
Proof.
  intros Hin.
  destruct (time_max_spec df) as (m & _ & -> & Hle).
  { intro E. rewrite E in Hin. inversion Hin. }
  cbn. apply Qlt_bool_false_iff. now apply Hle.
Qed.

(** The first launch ingests the whole source and sets the mark to its
    maximum time: the state that C1 starts from. *)
Lemma bootstrap_ingests (d : Disk) (src : DataFrame) (c0 : string)
    (cs : list string) :
  negb (exists_ (PARQUET_FILE d)) || negb (exists_ (TIME_FILE d)) = true ->
  CSV_FILE d = Holds src -> columns src = c0 :: cs ->
  fst (main_bootstrap no_faults d) =
  mkDisk (CSV_FILE d) (Holds (mkDF ("time"%string :: cs) (rows src)))
         (Holds (time_max src)) (CONFIG_FILE d).
Proof.
  intros Hc Hs Hcols. unfold main_bootstrap. rewrite Hc.
  unfold read_csv, rename_time, bind, read; cbn. rewrite Hs; cbn.
  rewrite Hcols; cbn. rewrite ?Hs. reflexivity.
Qed.

(** After a launch on a source without rows the mark is NaN, and under a NaN
    mark no refresh ever ingests anything, whatever the source holds. *)
Remark refresh_under_nan_mark (f : Faults) (d : Disk) :
  TIME_FILE d = Holds NaN -> fst (refresh_parquet_from_csv f d) = d.
Proof.
  intros Hn. apply refresh_no_new_rows. intros src h _ Hh.
  rewrite Hn in Hh. injection Hh as <-.
  unfold new_rows. apply filter_nil_iff. reflexivity.
Qed.

(** C1.  The cache holds the [N] rows [old] ingested so far and the
    last-time file their maximum time; the source log is [old] followed by
    [M] rows [new], in non-decreasing time order, each new time comparing
    greater than the mark.  Then a refresh in which nothing fails leaves a
    cache of exactly [N + M] rows, namely [old ++ new], sorted ascending by
    time, and the mark at the maximum time of that cache.  (When [old] is
    empty the mark is NaN and no time compares greater than it, so [M] is
    0.)  The start-up code, launched on the same disk, leaves the same
    disk as the refresh. *)
Theorem refresh_no_data_loss (d : Disk) (src cache : DataFrame)
    (old new : list Row) :
  CSV_FILE d = Holds src -> columns src <> [] -> rows src = old ++ new ->
  PARQUET_FILE d = Holds cache -> rows cache = old ->
  TIME_FILE d = Holds (time_max cache) ->
  sorted_by_time (rows src) ->
  (forall r, In r new -> gt_float (time r) (time_max cache) = true) ->
  exists cache',
    PARQUET_FILE (fst (refresh_parquet_from_csv no_faults d)) = Holds cache' /\
    rows cache' = old ++ new /\
    List.length (rows cache') = (List.length old + List.length new)%nat /\
    sorted_by_time (rows cache') /\
    TIME_FILE (fst (refresh_parquet_from_csv no_faults d))
      = Holds (time_max cache') /\
    fst (main_bootstrap no_faults d)
      = fst (refresh_parquet_from_csv no_faults d).
Proof.
  intros Hs Hcols Hrows Hp Hold Hh Hsorted Hnew.
  assert (Hlaunch : fst (main_bootstrap no_faults d)
                    = fst (refresh_parquet_from_csv no_faults d)).
  { rewrite bootstrap_incremental by (now rewrite Hp, Hh).
    unfold refresh_parquet_from_csv. rewrite Hs, Hh. cbn.
    destruct (incremental_update no_faults d) as [d' [e | [|]]];
      reflexivity. }
  assert (Hsel : new_rows src (time_max cache) = new).
  { unfold new_rows. rewrite Hrows, filter_app.
    replace (filter _ old) with (@nil Row).
    - cbn. now apply filter_all.
    - symmetry. apply filter_nil_iff. intros r Hin.
      apply not_gt_time_max. now rewrite Hold. }
  rewrite Hlaunch.
  unfold refresh_parquet_from_csv. rewrite Hs, Hh. cbn.
  rewrite (incremental_update_ok d _ src cache Hh Hs Hcols Hp), Hsel.
  destruct new as [|r0 rs].
  - exists cache. cbn. rewrite app_nil_r in *. rewrite Hold.
    repeat split; auto. now rewrite <- Hrows.
  - eexists. cbn. split; [reflexivity|]. cbn. rewrite Hold.
    repeat split.
    + now rewrite length_app.
    + now rewrite <- Hrows.
    + f_equal. apply time_max_rows. cbn. now rewrite Hrows.
Qed.

Lemma refresh_no_data_loss_witness :
  (forall r, In r [sample 3 1; sample 4 0] ->
             gt_float (time r) (time_max cache3) = true) /\
  exists cache',
    PARQUET_FILE (fst (refresh_parquet_from_csv no_faults disk_behind))
      = Holds cache' /\
    rows cache' = rows cache3 ++ [sample 3 1; sample 4 0] /\
    List.length (rows cache') = (3 + 2)%nat.
Proof.
  assert (Hnew : forall r, In r [sample 3 1; sample 4 0] ->
                           gt_float (time r) (time_max cache3) = true).
  { intros r [<- | [<- | []]]; reflexivity. }
  assert (Hsorted : sorted_by_time (rows source5)).
  { unfold sorted_by_time, time_le. cbn.
    repeat constructor; cbn; discriminate. }
  split; [exact Hnew|].
  destruct (refresh_no_data_loss disk_behind source5 cache3 (rows cache3)
              [sample 3 1; sample 4 0] eq_refl
              ltac:(discriminate) eq_refl eq_refl eq_refl eq_refl
              Hsorted Hnew)
    as (cache' & H1 & H2 & H3 & _).
  exists cache'. auto.
Defined.

(** ** C4: the window returned by the loader *)

Lemma in_window_iff (lo hi : Q) (r : Row) :
  in_window lo hi r = true <-> lo <= time r /\ time r <= hi.
Proof.
  unfold in_window. rewrite andb_true_iff, !Qle_bool_iff. tauto.
Qed.

(** C4.  For every center time and half-width, whatever the disk holds and
    whatever fails, every row of the frame returned by [load_data_window]
    has its time in [[center - half, center + half]].  When the cache cannot
    be read (the read fails or the file is absent or unreadable) the frame
    returned is the empty [pd.DataFrame()] and the failure is printed;
    otherwise the frame holds exactly the rows of the refreshed cache that
    lie in the interval, in the order of the cache.  The function has no
    outcome other than a disk, a frame and the lines printed. *)
Theorem load_data_window_contained (f : Faults) (fail_read_table : bool)
    (center half : Q) (d : Disk) :
  let '(d', df, log) := load_data_window f fail_read_table center half d in
  (forall r, In r (rows df) ->
             center - half <= time r /\ time r <= center + half) /\
  d' = fst (refresh_parquet_from_csv f d) /\
  ((fail_read_table = true \/ forall cache, PARQUET_FILE d' <> Holds cache) ->
   df = DataFrame_empty /\
   exists e, log = snd (refresh_parquet_from_csv f d)
                   ++ [Error_load_window_failed e]) /\
  (forall cache, fail_read_table = false -> PARQUET_FILE d' = Holds cache ->
     df = mkDF (columns cache)
               (filter (in_window (center - half) (center + half))
                       (rows cache)) /\
     log = snd (refresh_parquet_from_csv f d)).
Proof.
  unfold load_data_window.
  destruct (refresh_parquet_from_csv f d) as [d1 log1]; cbn [fst snd].
  unfold read_table, bind, read.
  destruct fail_read_table.
  { cbn. split; [intros r []|]. split; [reflexivity|].
    split; [intros _; split; [reflexivity | eexists; reflexivity]|].
    intros cache0 H1 H2. discriminate. }
  destruct (PARQUET_FILE d1) as [| |cache] eqn:Ep; cbn.
  - split; [intros r []|]. split; [reflexivity|].
    split; [intros _; split; [reflexivity | eexists; reflexivity]|].
    intros cache0 H1 H2. congruence.
  - split; [intros r []|]. split; [reflexivity|].
    split; [intros _; split; [reflexivity | eexists; reflexivity]|].
    intros cache0 H1 H2. congruence.
  - split; [|split; [reflexivity|split]].
    + intros r Hin. apply filter_In in Hin as [_ Hw].
      now apply in_window_iff.
    + intros [Hf | Hno]; [discriminate|]. exfalso. now apply (Hno cache).
    + intros cache0 _ E. rewrite Ep in E. injection E as <-.
      split; reflexivity.
Qed.

(** * Properties of the cursor *)

(** ** C7: nearest-row resolution *)

(** The scan keeps the first position of the least value seen so far:
    [pre] is the part already scanned, [best] the position kept and [bv]
    the value there. *)
Lemma argmin_from_spec (l pre : list Q) (best : nat) (bv : Q) :
  nth_error pre best = Some bv ->
  (forall j v, nth_error pre j = Some v -> bv <= v) ->
  (forall j v, (j < best)%nat -> nth_error pre j = Some v -> bv < v) ->
  exists kv,
    nth_error (pre ++ l) (argmin_from l (List.length pre) best bv) = Some kv /\
    (forall j v, nth_error (pre ++ l) j = Some v -> kv <= v) /\
    (forall j v, (j < argmin_from l (List.length pre) best bv)%nat ->
                 nth_error (pre ++ l) j = Some v -> kv < v).
Proof.
  revert pre best bv.
  induction l as [|x l IH]; intros pre best bv Hbest Hmin Hfirst; cbn.
  - rewrite app_nil_r. exists bv. auto.
  - assert (Hlen : List.length (pre ++ [x]) = S (List.length pre)).
    { rewrite length_app. cbn. lia. }
    assert (Hsplit : forall j v, nth_error (pre ++ [x]) j = Some v ->
                       nth_error pre j = Some v \/
                       (j = List.length pre /\ v = x)).
    { intros j v Hj. destruct (Nat.lt_ge_cases j (List.length pre)) as [Hlt | Hge].
      - left. now rewrite nth_error_app1 in Hj.
      - right. rewrite nth_error_app2 in Hj by assumption.
        destruct (j - List.length pre)%nat as [|n] eqn:En; cbn in Hj.
        + split; [lia | congruence].
        + destruct n; discriminate. }
    replace (pre ++ x :: l) with ((pre ++ [x]) ++ l)
      by (rewrite <- app_assoc; reflexivity).
    rewrite <- Hlen.
    destruct (Qlt_bool x bv) eqn:Ex.
    + apply Qlt_bool_iff in Ex. apply IH.
      * rewrite nth_error_app2 by lia. now rewrite Nat.sub_diag.
      * intros j v Hj. destruct (Hsplit j v Hj) as [Hp | [_ ->]].
        -- apply Qlt_le_weak. eapply Qlt_le_trans; [exact Ex | eauto].
        -- apply Qle_refl.
      * intros j v Hlt Hj. destruct (Hsplit j v Hj) as [Hp | [-> _]]; [|lia].
        eapply Qlt_le_trans; [exact Ex | eauto].
    + apply Qlt_bool_false_iff in Ex. apply IH.
      * rewrite nth_error_app1; [assumption|].
        apply nth_error_Some. congruence.
      * intros j v Hj. destruct (Hsplit j v Hj) as [Hp | [_ ->]]; eauto.
      * intros j v Hlt Hj. destruct (Hsplit j v Hj) as [Hp | [-> _]]; eauto.
        exfalso. assert (best < List.length pre)%nat; [|lia].
        apply nth_error_Some. congruence.
Qed.

Lemma argmin_spec (l : list Q) :
  l <> [] ->
  exists k kv,
    argmin l = Some k /\ nth_error l k = Some kv /\
    (forall j v, nth_error l j = Some v -> kv <= v) /\
    (forall j v, (j < k)%nat -> nth_error l j = Some v -> kv < v).
Proof.
  destruct l as [|x l]; [congruence|]. intros _. cbn.
  destruct (argmin_from_spec l [x] 0 x) as (kv & H1 & H2 & H3).
  - reflexivity.
  - intros [|[|j]] v Hj; cbn in Hj; try discriminate.
    injection Hj as <-. apply Qle_refl.
  - intros j v Hlt. lia.
  - exists (argmin_from l 1 0 x), kv. auto.
Qed.

Lemma nth_error_abs_diff (times : list Q) (x : Q) (j : nat) :
  nth_error (abs_diff times x) j
  = option_map (fun t => Qabs (t - x)) (nth_error times j).
Proof. unfold abs_diff. apply nth_error_map. Qed.

(** The nearest index exists exactly on a non-empty time column and lies
    within it. *)
Lemma nearest_index_some (times : list Q) (x : Q) :
  times <> [] ->
  exists i ti, nearest_index times x = Some i /\ nth_error times i = Some ti.
Proof.
  intros Hne.
  destruct (argmin_spec (abs_diff times x)) as (k & kv & Hk & Hnth & _).
  { destruct times; [congruence | discriminate]. }
  rewrite nth_error_abs_diff in Hnth.
  destruct (nth_error times k) as [tk|] eqn:Etk; [|discriminate].
  exists k, tk. auto.
Qed.

(** C7.  Nearest-row resolution is a function of the time column and the
    query.  On a non-empty column the index it returns is a row whose
    absolute time difference to the query is minimal, and every row before
    it is strictly farther: among the rows at minimal distance the smallest
    index is returned.  For the times 1, 2, 3 and the query 3/2 the index is
    0. *)
Theorem nearest_index_first_minimum :
  (forall (times : list Q) (x : Q),
      times <> [] ->
      exists i ti,
        nearest_index times x = Some i /\ nth_error times i = Some ti /\
        (forall j tj, nth_error times j = Some tj ->
                      Qabs (ti - x) <= Qabs (tj - x)) /\
        (forall j tj, (j < i)%nat -> nth_error times j = Some tj ->
                      Qabs (ti - x) < Qabs (tj - x))) /\
  nearest_index [1; 2; 3] (3 # 2) = Some 0%nat.
Proof.
  split; [|reflexivity].
  intros times x Hne.
  destruct (argmin_spec (abs_diff times x)) as (k & kv & Hk & Hnth & Hmin & Hfst).
  { destruct times; [congruence | discriminate]. }
  rewrite nth_error_abs_diff in Hnth.
  destruct (nth_error times k) as [tk|] eqn:Etk; [|discriminate].
  cbn in Hnth. injection Hnth as <-.
  exists k, tk. repeat split; auto.
  - intros j tj Hj. apply (Hmin j). rewrite nth_error_abs_diff, Hj. reflexivity.
  - intros j tj Hlt Hj. apply (Hfst j); [assumption|].
    rewrite nth_error_abs_diff, Hj. reflexivity.
Qed.

(** ** C6: the edge jump *)

Lemma diff_nth (l : list Q) (j : nat) :
  nth_error (diff l) j =
  match nth_error l j, nth_error l (S j) with
  | Some a, Some b => Some (b - a)
  | _, _ => None
  end.
Proof.
  revert j. induction l as [|a l IH]; intros j.
  - destruct j; reflexivity.
  - destruct l as [|b l'].
    + destruct j as [|[|j]]; reflexivity.
    + destruct j as [|j].
      * reflexivity.
      * change (nth_error (diff (a :: b :: l')) (S j))
          with (nth_error (diff (b :: l')) j).
        rewrite IH. reflexivity.
Qed.

Lemma nonzero_from_spec (l : list Q) (i k : nat) :
  In k (nonzero_from i l) <->
  exists j v, k = (i + j)%nat /\ nth_error l j = Some v /\
              Qeq_bool v 0 = false.
Proof.
  revert i. induction l as [|x l IH]; intros i; cbn.
  - split; [tauto|]. intros (j & v & _ & Hj & _). destruct j; discriminate.
  - destruct (Qeq_bool x 0) eqn:Ex.
    + rewrite IH. split.
      * intros (j & v & -> & Hj & Hv). exists (S j), v.
        repeat split; auto; lia.
      * intros ([|j] & v & -> & Hj & Hv); cbn in Hj.
        -- congruence.
        -- exists j, v. repeat split; auto; lia.
    + cbn. rewrite IH. split.
      * intros [<- | (j & v & -> & Hj & Hv)].
        -- exists 0%nat, x. repeat split; auto; lia.
        -- exists (S j), v. repeat split; auto; lia.
      * intros ([|j] & v & -> & Hj & Hv); cbn in Hj.
        -- left. lia.
        -- right. exists j, v. repeat split; auto; lia.
Qed.

Lemma nonzero_from_sorted (l : list Q) (i : nat) :
  StronglySorted lt (nonzero_from i l).
Proof.
  revert i. induction l as [|x l IH]; intros i; cbn; [constructor|].
  destruct (Qeq_bool x 0); [apply IH|].
  constructor; [apply IH|]. apply Forall_forall. intros k Hk.
  apply nonzero_from_spec in Hk as (j & v & -> & _). lia.
Qed.

Lemma changes_sorted (values : list Q) : StronglySorted lt (changes values).
Proof.
  unfold changes. generalize (nonzero_from_sorted (diff values) 0).
  induction 1 as [|a l Hs IH Ha]; cbn; constructor; [assumption|].
  apply Forall_forall. intros k Hk. apply in_map_iff in Hk as (k' & <- & Hk').
  rewrite Forall_forall in Ha. specialize (Ha k' Hk'). lia.
Qed.

Lemma changes_spec (values : list Q) (k : nat) :
  In k (changes values) <-> change_point values k.
Proof.
  unfold changes, change_point. rewrite in_map_iff. split.
  - intros (j & <- & Hj). apply nonzero_from_spec in Hj as (j' & v & -> & Hv & Hnz).
    cbn in *. rewrite diff_nth in Hv.
    destruct (nth_error values j') as [a|] eqn:Ea; [|discriminate].
    destruct (nth_error values (S j')) as [b|] eqn:Eb; [|discriminate].
    injection Hv as <-. exists j', a, b. repeat split; auto.
    intros Hab. assert (Hz : b - a == 0) by lra.
    apply Qeq_bool_iff in Hz. congruence.
  - intros (j & a & b & -> & Ha & Hb & Hab). exists j. split; [reflexivity|].
    apply nonzero_from_spec. exists j, (b - a). repeat split.
    + rewrite diff_nth, Ha, Hb. reflexivity.
    + destruct (Qeq_bool (b - a) 0) eqn:E; [|reflexivity].
      apply Qeq_bool_iff in E. exfalso. apply Hab. lra.
Qed.

Lemma filter_sorted (p : nat -> bool) (l : list nat) :
  StronglySorted lt l -> StronglySorted lt (filter p l).
Proof.
  induction 1 as [|a l Hs IH Ha]; cbn; [constructor|].
  destruct (p a); [|assumption]. constructor; [assumption|].
  rewrite Forall_forall in *. intros x Hx. apply filter_In in Hx as [Hx _].
  auto.
Qed.

Lemma hd_sorted_least (l : list nat) (c : nat) :
  StronglySorted lt l -> hd_error l = Some c ->
  In c l /\ forall c', In c' l -> (c <= c')%nat.
Proof.
  intros Hs Hhd. destruct l as [|a l]; [discriminate|].
  injection Hhd as ->. split; [now left|].
  inversion Hs as [|? ? _ Ha]; subst. rewrite Forall_forall in Ha.
  intros c' [<- | Hin]; [lia|]. specialize (Ha c' Hin). lia.
Qed.

Lemma last_error_cons {A} (a : A) (l : list A) :
  last_error (a :: l) = match l with [] => Some a | _ :: _ => last_error l end.
Proof.
  unfold last_error. cbn. destruct l as [|b l]; [reflexivity|]. cbn.
  destruct (rev l ++ [b]) as [|x r] eqn:E; [|reflexivity].
  destruct (rev l); discriminate.
Qed.

Lemma last_sorted_greatest (l : list nat) (c : nat) :
  StronglySorted lt l -> last_error l = Some c ->
  In c l /\ forall c', In c' l -> (c' <= c)%nat.
Proof.
  induction 1 as [|a l Hs IH Ha]; [discriminate|].
  rewrite last_error_cons. destruct l as [|b l].
  - intros E. injection E as ->. split; [now left|].
    intros c' [<- | []]. lia.
  - intros E. destruct (IH E) as [Hin Hmax]. split; [now right|].
    intros c' [<- | Hc']; [|now apply Hmax].
    rewrite Forall_forall in Ha. specialize (Ha c Hin). lia.
Qed.

Lemma last_error_none {A} (l : list A) : last_error l = None -> l = [].
Proof.
  unfold last_error. destruct l as [|a l]; [reflexivity|]. cbn.
  destruct (rev l); discriminate.
Qed.

(** What a frame contributes to [candidates] is the edge it offers. *)
Lemma candidate_edge (direction : Z) (df : DataFrame) (idx : nat)
    (f : PlotFrame) (values : list Q) (c : nat) :
  column df (var_name f) = Some values ->
  candidate direction idx (changes values) = Some c <->
  edge direction df idx f c.
Proof.
  intros Hcol. unfold candidate, edge.
  pose proof (changes_sorted values) as Hs.
  destruct (direction >? 0)%Z.
  - pose proof (filter_sorted (fun c => (idx <? c)%nat) _ Hs) as Hfs. split.
    + intros Hhd. destruct (hd_sorted_least _ _ Hfs Hhd) as [Hin Hleast].
      apply filter_In in Hin as [Hin Hlt]. apply Nat.ltb_lt in Hlt.
      exists values. repeat split; auto.
      * now apply changes_spec.
      * intros k' Hk' Hlt'. apply Hleast. apply filter_In. split.
        -- now apply changes_spec.
        -- now apply Nat.ltb_lt.
    + intros (values' & Hcol' & Hcp & Hlt & Hleast).
      rewrite Hcol in Hcol'. injection Hcol' as <-.
      assert (Hin : In c (filter (fun c => (idx <? c)%nat) (changes values))).
      { apply filter_In. split; [now apply changes_spec | now apply Nat.ltb_lt]. }
      destruct (hd_error (filter _ (changes values))) as [c0|] eqn:Ehd.
      * destruct (hd_sorted_least _ _ Hfs Ehd) as [Hin0 Hleast0].
        apply filter_In in Hin0 as [Hin0 Hlt0]. apply Nat.ltb_lt in Hlt0.
        apply changes_spec in Hin0.
        specialize (Hleast0 c Hin). specialize (Hleast c0 Hin0 Hlt0).
        f_equal. lia.
      * destruct (filter _ (changes values)); [inversion Hin | discriminate].
  - pose proof (filter_sorted (fun c => (c <? idx)%nat) _ Hs) as Hfs. split.
    + intros Hlast. destruct (last_sorted_greatest _ _ Hfs Hlast) as [Hin Hmax].
      apply filter_In in Hin as [Hin Hlt]. apply Nat.ltb_lt in Hlt.
      exists values. repeat split; auto.
      * now apply changes_spec.
      * intros k' Hk' Hlt'. apply Hmax. apply filter_In. split.
        -- now apply changes_spec.
        -- now apply Nat.ltb_lt.
    + intros (values' & Hcol' & Hcp & Hlt & Hmax).
      rewrite Hcol in Hcol'. injection Hcol' as <-.
      assert (Hin : In c (filter (fun c => (c <? idx)%nat) (changes values))).
      { apply filter_In. split; [now apply changes_spec | now apply Nat.ltb_lt]. }
      destruct (last_error (filter _ (changes values))) as [c0|] eqn:El.
      * destruct (last_sorted_greatest _ _ Hfs El) as [Hin0 Hmax0].
        apply filter_In in Hin0 as [Hin0 Hlt0]. apply Nat.ltb_lt in Hlt0.
        apply changes_spec in Hin0.
        specialize (Hmax0 c Hin). specialize (Hmax c0 Hin0 Hlt0).
        f_equal. lia.
      * apply last_error_none in El. rewrite El in Hin. inversion Hin.
Qed.

Lemma collect_candidates_some (df : DataFrame) (direction : Z) (idx : nat)
    (fs : list PlotFrame) :
  (forall f, In f fs -> column df (var_name f) <> None) ->
  exists cs, collect_candidates df direction idx fs = Some cs.
Proof.
  induction fs as [|f fs IH]; intros Hcols; cbn; [eauto|].
  destruct (column df (var_name f)) as [values|] eqn:Ec.
  - destruct IH as [cs ->]; [intros g Hg; apply Hcols; now right|]. eauto.
  - exfalso. apply (Hcols f); [now left | assumption].
Qed.

(** The candidates are the edges that the frames offer. *)
Lemma collect_candidates_spec (df : DataFrame) (direction : Z) (idx : nat)
    (fs : list PlotFrame) (cs : list nat) (c : nat) :
  collect_candidates df direction idx fs = Some cs ->
  In c cs <-> exists f, In f fs /\ edge direction df idx f c.
Proof.
  revert cs. induction fs as [|f fs IH]; intros cs; cbn.
  - intros E. injection E as <-. split; [intros [] | intros (f & [] & _)].
  - destruct (column df (var_name f)) as [values|] eqn:Ec; [|discriminate].
    destruct (collect_candidates df direction idx fs) as [cs'|];
      [|discriminate].
    specialize (IH cs' eq_refl).
    pose proof (candidate_edge direction df idx f values) as Hc.
    intros E. injection E as <-.
    destruct (candidate direction idx (changes values)) as [c0|] eqn:E0.
    + split.
      * intros [<- | Hin].
        -- exists f. split; [now left|]. now apply Hc.
        -- apply IH in Hin as (g & Hg & He). exists g. split; [now right | auto].
      * intros (g & [<- | Hg] & He).
        -- left. apply (Hc c Ec) in He. congruence.
        -- right. apply IH. eauto.
    + split.
      * intros Hin. apply IH in Hin as (g & Hg & He).
        exists g. split; [now right | auto].
      * intros (g & [<- | Hg] & He).
        -- apply (Hc c Ec) in He. congruence.
        -- apply IH. eauto.
Qed.

Lemma fold_min_spec (cs : list nat) (c : nat) :
  In (fold_left Nat.min cs c) (c :: cs) /\
  forall x, In x (c :: cs) -> (fold_left Nat.min cs c <= x)%nat.
Proof.
  revert c. induction cs as [|a cs IH]; intros c; cbn.
  - split; [now left|]. intros x [<- | []]. lia.
  - destruct (IH (Nat.min c a)) as [Hin Hle]. split.
    + destruct Hin as [E | Hin]; [|now right; right].
      rewrite <- E. destruct (Nat.min_spec c a) as [[_ ->] | [_ ->]]; auto.
    + intros x [<- | [<- | Hx]].
      * specialize (Hle _ (or_introl eq_refl)). lia.
      * specialize (Hle _ (or_introl eq_refl)). lia.
      * apply Hle. now right.
Qed.

Lemma fold_max_nat_spec (cs : list nat) (c : nat) :
  In (fold_left Nat.max cs c) (c :: cs) /\
  forall x, In x (c :: cs) -> (x <= fold_left Nat.max cs c)%nat.
Proof.
  revert c. induction cs as [|a cs IH]; intros c; cbn.
  - split; [now left|]. intros x [<- | []]. lia.
  - destruct (IH (Nat.max c a)) as [Hin Hle]. split.
    + destruct Hin as [E | Hin]; [|now right; right].
      rewrite <- E. destruct (Nat.max_spec c a) as [[_ ->] | [_ ->]]; auto.
    + intros x [<- | [<- | Hx]].
      * specialize (Hle _ (or_introl eq_refl)). lia.
      * specialize (Hle _ (or_introl eq_refl)). lia.
      * apply Hle. now right.
Qed.

Lemma pick_spec (direction : Z) (c : nat) (cs : list nat) :
  In (pick direction c cs) (c :: cs) /\
  forall x, In x (c :: cs) -> before direction (pick direction c cs) x.
Proof.
  unfold pick, before. destruct (direction >? 0)%Z;
    [apply fold_min_spec | apply fold_max_nat_spec].
Qed.

Lemma column_length (df : DataFrame) (name : string) (values : list Q) :
  column df name = Some values ->
  List.length values = List.length (rows df).
Proof.
  unfold column. destruct (index_of name (columns df)); [|discriminate].
  cbn. intros E. injection E as <-. apply length_map.
Qed.

Lemma time_column_length (df : DataFrame) (times : list Q) :
  time_column df = Some times ->
  List.length times = List.length (rows df).
Proof.
  unfold time_column. destruct (columns df); [discriminate|].
  intros E. injection E as <-. apply length_map.
Qed.

Lemma change_point_lt (values : list Q) (k : nat) :
  change_point values k -> (k < List.length values)%nat.
Proof.
  intros (j & a & b & -> & _ & Hb & _). apply nth_error_Some. congruence.
Qed.

(** The status line does not move the cursor. *)
Lemma update_top_label_current_time (w : PlotWindow) :
  current_time (fst (update_top_label w)) = current_time w.
Proof.
  unfold update_top_label, bind, get, or_raise, modify, ret, raise.
  destruct (data w) as [df|]; [|reflexivity].
  destruct (active_frame w) as [af|]; [|reflexivity].
  destruct (time_column df) as [times|]; [|reflexivity].
  destruct (nearest_index times (current_time w)) as [idx|]; [|reflexivity].
  destruct (nth_error times idx); [|reflexivity].
  destruct (column df (var_name af)) as [ys|]; [|reflexivity].
  destruct (nth_error ys idx); [|reflexivity]. cbn.
  destruct (frame_cells df idx (frames w)); reflexivity.
Qed.

(** The jump once the lookups of its first lines have succeeded. *)
Lemma jump_to_edge_unfold (direction : Z) (w : PlotWindow) (df : DataFrame)
    (times : list Q) (idx : nat) (cands : list nat) :
  data w = Some df -> time_column df = Some times ->
  nearest_index times (current_time w) = Some idx ->
  collect_candidates df direction idx (frames w) = Some cands ->
  jump_to_edge direction w =
  match cands with
  | [] => (w, inr tt)
  | c :: cs =>
      (t <- or_raise IndexError (nth_error times (pick direction c cs)) ;;
       modify (set_current_time t) ;;;
       _ <- or_raise KeyError
              (frame_cells df (pick direction c cs) (frames w)) ;;
       update_top_label) w
  end.
Proof.
  intros Hd Ht Hi Hc. unfold jump_to_edge.
  unfold bind at 1. unfold get. rewrite Hd.
  unfold bind at 1. rewrite Ht. cbn [or_raise ret].
  unfold bind at 1. rewrite Hi. cbn [or_raise ret].
  unfold bind at 1. rewrite Hc. cbn [or_raise ret].
  destruct cands; reflexivity.
Qed.

(** The jump in either direction: when no frame offers an edge the call
    returns with the window as it was; otherwise the cursor goes to the time
    of the row whose index is the first, in the direction of the jump, among
    the edges offered by the frames. *)
Lemma jump_to_edge_general (direction : Z) (w : PlotWindow) (df : DataFrame)
    (times : list Q) (idx : nat) :
  data w = Some df -> time_column df = Some times ->
  nearest_index times (current_time w) = Some idx ->
  (forall f, In f (frames w) -> column df (var_name f) <> None) ->
  ((forall f k, In f (frames w) -> ~ edge direction df idx f k) /\
   jump_to_edge direction w = (w, inr tt)) \/
  (exists f k t,
      In f (frames w) /\ edge direction df idx f k /\
      (forall g k', In g (frames w) -> edge direction df idx g k' ->
                    before direction k k') /\
      nth_error times k = Some t /\
      current_time (fst (jump_to_edge direction w)) = t).
Proof.
  intros Hd Ht Hi Hcols.
  destruct (collect_candidates_some df direction idx (frames w) Hcols)
    as [cands Hc].
  rewrite (jump_to_edge_unfold direction w df times idx cands Hd Ht Hi Hc).
  pose proof (fun c => collect_candidates_spec df direction idx (frames w)
                         cands c Hc) as Hspec.
  destruct cands as [|c cs].
  - left. split; [|reflexivity]. intros f k Hf He.
    apply (proj2 (Hspec k)). eauto.
  - right. destruct (pick_spec direction c cs) as [Hin Hfirst].
    apply Hspec in Hin as (f & Hf & He).
    assert (Hlt : (pick direction c cs < List.length times)%nat).
    { rewrite (time_column_length df times Ht).
      assert (Hv : exists values, column df (var_name f) = Some values /\
                                  change_point values (pick direction c cs)).
      { unfold edge in He. destruct (direction >? 0)%Z;
          destruct He as (values & H1 & H2 & _); eauto. }
      destruct Hv as (values & Hcol & Hcp).
      rewrite <- (column_length df _ values Hcol).
      now apply change_point_lt. }
    destruct (nth_error times (pick direction c cs)) as [t|] eqn:Et.
    2: { apply nth_error_None in Et. lia. }
    exists f, (pick direction c cs), t. repeat split; auto.
    + intros g k' Hg He'. apply Hfirst. apply Hspec. eauto.
    + unfold bind, or_raise, modify, ret, raise.
      cbn -[update_top_label frame_cells pick].
      destruct (frame_cells df (pick direction c cs) (frames w));
        cbn -[update_top_label]; [|reflexivity].
      rewrite update_top_label_current_time. reflexivity.
Qed.

(** On a frame without rows the jump raises before it assigns anything. *)
Lemma jump_to_edge_no_rows (direction : Z) (w : PlotWindow) (df : DataFrame) :
  data w = Some df -> rows df = [] ->
  fst (jump_to_edge direction w) = w /\
  exists e, snd (jump_to_edge direction w) = inl e.
Proof.
  intros Hd Hr. unfold jump_to_edge, bind, get. rewrite Hd.
  unfold time_column. rewrite Hr.
  destruct (columns df); cbn; eauto.
Qed.

(** C6.  In a window whose frame has a time column and whose plotted
    channels are columns of the frame, let [idx] be the nearest-row index of
    the cursor.  [jump_to_edge 1] moves the cursor to the time of the row
    whose index [k] is, for some channel, that channel's smallest change
    point greater than [idx], and is at most every channel's smallest such
    change point; [jump_to_edge (-1)] uses, symmetrically, the largest
    change point less than [idx] and the maximum over the channels.  When no
    channel has such a change point the window, and with it the cursor, is
    unchanged; on a frame without rows the call raises and changes nothing.
    On the channel 0,0,1,1,0,0 at the times 0..5, starting at time 0, a jump
    forward moves the cursor to time 2 and a second one to time 4. *)
Theorem jump_to_edge_spec :
  (forall (w : PlotWindow) (df : DataFrame) (times : list Q) (idx : nat),
      data w = Some df -> time_column df = Some times ->
      nearest_index times (current_time w) = Some idx ->
      (forall f, In f (frames w) -> column df (var_name f) <> None) ->
      (((forall f k, In f (frames w) -> ~ next_edge df idx f k) /\
        jump_to_edge 1 w = (w, inr tt)) \/
       (exists f k t,
           In f (frames w) /\ next_edge df idx f k /\
           (forall g k', In g (frames w) -> next_edge df idx g k' ->
                         (k <= k')%nat) /\
           nth_error times k = Some t /\
           current_time (fst (jump_to_edge 1 w)) = t)) /\
      (((forall f k, In f (frames w) -> ~ prev_edge df idx f k) /\
        jump_to_edge (-1) w = (w, inr tt)) \/
       (exists f k t,
           In f (frames w) /\ prev_edge df idx f k /\
           (forall g k', In g (frames w) -> prev_edge df idx g k' ->
                         (k' <= k)%nat) /\
           nth_error times k = Some t /\
           current_time (fst (jump_to_edge (-1) w)) = t))) /\
  (forall (direction : Z) (w : PlotWindow) (df : DataFrame),
      data w = Some df -> rows df = [] ->
      fst (jump_to_edge direction w) = w) /\
  current_time edge_window = 0 /\
  current_time (fst (jump_to_edge 1 edge_window)) = 2 /\
  current_time (fst (jump_to_edge 1 (fst (jump_to_edge 1 edge_window)))) = 4.
Proof.
  split; [|split; [|repeat split]].
  - intros w df times idx Hd Ht Hi Hcols. split.
    + exact (jump_to_edge_general 1 w df times idx Hd Ht Hi Hcols).
    + exact (jump_to_edge_general (-1) w df times idx Hd Ht Hi Hcols).
  - intros direction w df Hd Hr.
    exact (proj1 (jump_to_edge_no_rows direction w df Hd Hr)).
Qed.

(** * Properties of the delta selection *)

Ltac break_match :=
  match goal with
  | |- context [match ?x with _ => _ end] => destruct x eqn:?
  end.

(** The combinators of the monad keep whatever their parts keep. *)
Section Keeps.
Context {X : Type} (attribute : PlotWindow -> X).

Lemma keeps_ret {A} (a : A) : keeps attribute (ret a).
Proof. intros w. reflexivity. Qed.

Lemma keeps_raise {A} (e : exn) : keeps attribute (@raise _ A e).
Proof. intros w. reflexivity. Qed.

Lemma keeps_or_raise {A} (e : exn) (o : option A) :
  keeps attribute (or_raise e o).
Proof. destruct o; [apply keeps_ret | apply keeps_raise]. Qed.

Lemma keeps_get : keeps attribute get.
Proof. intros w. reflexivity. Qed.

Lemma keeps_modify (f : PlotWindow -> PlotWindow) :
  (forall w, attribute (f w) = attribute w) -> keeps attribute (modify f).
Proof. intros H w. apply H. Qed.

Lemma keeps_bind {A B} (m : UI A) (k : A -> UI B) :
  keeps attribute m -> (forall a, keeps attribute (k a)) ->
  keeps attribute (bind m k).
Proof.
  intros Hm Hk w. unfold bind. specialize (Hm w).
  destruct (m w) as [w1 [e | a]]; cbn in *; [assumption|].
  rewrite Hk. assumption.
Qed.

End Keeps.

Ltac keeps_step :=
  first [ apply keeps_ret | apply keeps_raise | apply keeps_or_raise
        | apply keeps_get | apply keeps_modify; intros; reflexivity
        | apply keeps_bind; [|intros ?]
        | break_match ].

(** Drawing the delta lines touches neither the selection nor its plot. *)
Lemma draw_delta_lines_keeps_points (pw : nat) :
  keeps delta_points (draw_delta_lines pw).
Proof. unfold draw_delta_lines. repeat keeps_step. Qed.

Lemma draw_delta_lines_keeps_plot (pw : nat) :
  keeps delta_plot (draw_delta_lines pw).
Proof. unfold draw_delta_lines. repeat keeps_step. Qed.

Lemma update_top_label_keeps_points : keeps delta_points update_top_label.
Proof. unfold update_top_label. repeat keeps_step. Qed.

(** A click without Control leaves the selection alone. *)
Lemma plain_click_keeps_points (ev : MouseEvent) (pw : nat) (w : PlotWindow) :
  ctrl ev = false ->
  delta_points (after_click ev pw w) = delta_points w.
Proof.
  intros Hc. unfold after_click. revert w.
  change (keeps delta_points (on_mouse_click ev pw)).
  unfold on_mouse_click. rewrite Hc.
  repeat first [ apply update_top_label_keeps_points | keeps_step ].
Qed.

(** The selection after a Control-click inside a plot. *)
Lemma add_point_points (ev : MouseEvent) (pw : nat) (w : PlotWindow) :
  ctrl ev = true -> inside ev = true ->
  delta_points (after_click ev pw w) =
  if (2 <? List.length (delta_points w ++ [view_x ev]))%nat
  then [view_x ev] else delta_points w ++ [view_x ev].
Proof.
  intros Hc Hi. unfold after_click, on_mouse_click. rewrite Hc, Hi.
  unfold bind, modify, get, clear_delta_lines, ret.
  cbn -[draw_delta_lines Nat.ltb].
  destruct (2 <? List.length (delta_points w ++ [view_x ev]))%nat;
    cbn -[draw_delta_lines]; now rewrite draw_delta_lines_keeps_points.
Qed.

(** The plot bound to the selection after a Control-click inside a plot. *)
Lemma add_point_plot (ev : MouseEvent) (pw : nat) (w : PlotWindow) :
  ctrl ev = true -> inside ev = true ->
  delta_plot (after_click ev pw w) = Some pw.
Proof.
  intros Hc Hi. unfold after_click, on_mouse_click. rewrite Hc, Hi.
  unfold bind, modify, get, clear_delta_lines, ret.
  cbn -[draw_delta_lines Nat.ltb].
  destruct (2 <? List.length (delta_points w ++ [view_x ev]))%nat;
    cbn -[draw_delta_lines]; now rewrite draw_delta_lines_keeps_plot.
Qed.

(** ** C8: at most two points, and a third pick starts over *)

(** C8.  A Control-click inside a plot on a selection that already holds two
    points leaves exactly one point, the new x.  Whatever the click, a
    selection of at most two points is followed by a selection of at most
    two points; the selection of a new window is empty and clearing empties
    it, so it never holds more than two.  After the picks 1, 2 and 5 the
    selection holds the point 5 only. *)
Theorem delta_selection_at_most_two :
  (forall (ev : MouseEvent) (pw : nat) (w : PlotWindow),
      ctrl ev = true -> inside ev = true ->
      List.length (delta_points w) = 2%nat ->
      delta_points (after_click ev pw w) = [view_x ev]) /\
  (forall (ev : MouseEvent) (pw : nat) (w : PlotWindow),
      (List.length (delta_points w) <= 2)%nat ->
      (List.length (delta_points (after_click ev pw w)) <= 2)%nat) /\
  (forall w, delta_points (fst (clear_delta_lines w)) = []) /\
  delta_points PlotWindow_init = [] /\
  delta_points
    (after_click (ctrl_click 5) 0
       (after_click (ctrl_click 2) 0
          (after_click (ctrl_click 1) 0 two_plot_window))) = [5].
Proof.
  split; [|split; [|split; [|split]]].
  - intros ev pw w Hc Hi Hlen. rewrite add_point_points by assumption.
    rewrite length_app, Hlen. reflexivity.
  - intros ev pw w Hlen. destruct (ctrl ev) eqn:Hc.
    + destruct (inside ev) eqn:Hi.
      * rewrite add_point_points by assumption.
        destruct (2 <? List.length (delta_points w ++ [view_x ev]))%nat eqn:E.
        -- cbn. lia.
        -- apply Nat.ltb_ge in E. exact E.
      * unfold after_click, on_mouse_click. rewrite Hc, Hi. exact Hlen.
    + now rewrite plain_click_keeps_points.
  - reflexivity.
  - reflexivity.
  - reflexivity.
Qed.

(** ** C10: the selection is bound to the plot of the latest pick *)

Lemma nth_error_in_range {A} (l : list A) (i : nat) :
  (i < List.length l)%nat -> exists a, nth_error l i = Some a.
Proof.
  intros H. destruct (nth_error l i) as [a|] eqn:E; [eauto|].
  apply nth_error_None in E. lia.
Qed.

(** The second pick of a selection: [p] was picked before, on any plot, and
    [x] is picked on the plot [pw], whose frame shows the channel [f].  The
    selection is bound to [pw], and the readout is computed from the rows
    nearest to the two positions, in ascending order, with both values taken
    from the channel of [f]. *)
Lemma second_pick_readout (ev : MouseEvent) (pw : nat) (w : PlotWindow)
    (p : Q) (f : PlotFrame) (df : DataFrame) (times ys : list Q) :
  ctrl ev = true -> inside ev = true ->
  delta_points w = [p] -> data w = Some df ->
  frame_of (frames w) pw = Some f ->
  time_column df = Some times -> times <> [] ->
  column df (var_name f) = Some ys ->
  exists i1 i2 t1 t2 y1 y2,
    nearest_index times (if Qlt_bool (view_x ev) p then view_x ev else p)
      = Some i1 /\
    nearest_index times (if Qlt_bool (view_x ev) p then p else view_x ev)
      = Some i2 /\
    nth_error times i1 = Some t1 /\ nth_error times i2 = Some t2 /\
    nth_error ys i1 = Some y1 /\ nth_error ys i2 = Some y2 /\
    delta_plot (after_click ev pw w) = Some pw /\
    delta_points (after_click ev pw w) = [p; view_x ev] /\
    cursor_info_label (after_click ev pw w)
      = mkDeltaInfo (Qabs (t2 - t1)) (y2 - y1) t1 t2 y1 y2.
Proof.
  intros Hc Hi Hp Hd Hf Ht Hne Hy.
  set (lo := if Qlt_bool (view_x ev) p then view_x ev else p).
  set (hi := if Qlt_bool (view_x ev) p then p else view_x ev).
  destruct (nearest_index_some times lo Hne) as (i1 & t1 & Hi1 & Ht1).
  destruct (nearest_index_some times hi Hne) as (i2 & t2 & Hi2 & Ht2).
  assert (Hlen : List.length ys = List.length times).
  { rewrite (column_length _ _ _ Hy), (time_column_length _ _ Ht).
    reflexivity. }
  destruct (nth_error_in_range ys i1) as [y1 Hy1].
  { rewrite Hlen. apply nth_error_Some. congruence. }
  destruct (nth_error_in_range ys i2) as [y2 Hy2].
  { rewrite Hlen. apply nth_error_Some. congruence. }
  exists i1, i2, t1, t2, y1, y2.
  repeat (split; [assumption|]).
  split; [now apply add_point_plot|].
  split; [rewrite add_point_points by assumption; now rewrite Hp|].
  unfold after_click, on_mouse_click. rewrite Hc, Hi.
  unfold bind at 1 2 3 4. unfold modify at 1 2. unfold get at 1.
  cbn [delta_points set_delta_points set_delta_plot]. rewrite Hp.
  cbn [app List.length Nat.ltb Nat.leb ret].
  unfold draw_delta_lines. unfold bind at 1. unfold get at 1.
  cbn [delta_points data frames set_delta_points set_delta_plot].
  rewrite Hd. unfold bind at 1. unfold modify at 1.
  cbn [frames set_delta_lines]. rewrite Hf.
  fold lo hi.
  replace (if Qlt_bool (view_x ev) p then (view_x ev, p) else (p, view_x ev))
    with (lo, hi) by (unfold lo, hi; destruct (Qlt_bool (view_x ev) p);
                      reflexivity).
  unfold bind, or_raise, ret, modify.
  rewrite Ht, Hi1, Hi2, Ht1, Ht2, Hy, Hy1, Hy2. reflexivity.
Qed.

(** C10.  Every pick binds the selection to the plot that received it, and
    the readout of a completed selection takes both values from the channel
    of that plot, whichever plot the first point was picked on.  With a
    first pick at 1 on the plot of [A] and a second pick at 4 on the plot of
    [B], the selection is bound to the plot of [B] and the difference shown
    is the one of [B] (50 - 10), not of [A]. *)
Theorem delta_bound_to_latest_plot :
  (forall (ev : MouseEvent) (pw : nat) (w : PlotWindow),
      ctrl ev = true -> inside ev = true ->
      delta_plot (after_click ev pw w) = Some pw) /\
  (forall (ev : MouseEvent) (pw : nat) (w : PlotWindow) (p : Q)
          (f : PlotFrame) (df : DataFrame) (times ys : list Q),
      ctrl ev = true -> inside ev = true ->
      delta_points w = [p] -> data w = Some df ->
      frame_of (frames w) pw = Some f ->
      time_column df = Some times -> times <> [] ->
      column df (var_name f) = Some ys ->
      exists i1 i2 t1 t2 y1 y2,
        nearest_index times (if Qlt_bool (view_x ev) p then view_x ev else p)
          = Some i1 /\
        nearest_index times (if Qlt_bool (view_x ev) p then p else view_x ev)
          = Some i2 /\
        nth_error times i1 = Some t1 /\ nth_error times i2 = Some t2 /\
        nth_error ys i1 = Some y1 /\ nth_error ys i2 = Some y2 /\
        delta_plot (after_click ev pw w) = Some pw /\
        delta_points (after_click ev pw w) = [p; view_x ev] /\
        cursor_info_label (after_click ev pw w)
          = mkDeltaInfo (Qabs (t2 - t1)) (y2 - y1) t1 t2 y1 y2) /\
  delta_plot (after_click (ctrl_click 1) 0 two_plot_window) = Some 0%nat /\
  delta_plot (after_click (ctrl_click 4) 1
                (after_click (ctrl_click 1) 0 two_plot_window)) = Some 1%nat /\
  cursor_info_label (after_click (ctrl_click 4) 1
                       (after_click (ctrl_click 1) 0 two_plot_window))
    = mkDeltaInfo 3 40 1 4 10 50.
Proof.
  split; [|split; [|split; [|split]]].
  - intros ev pw w Hc Hi. now apply add_point_plot.
  - intros ev pw w p f df times ys. apply second_pick_readout.
  - reflexivity.
  - reflexivity.
  - vm_compute. reflexivity.
Qed.

(** * The view configuration *)

Lemma refresh_config (f : Faults) (d : Disk) :
  CONFIG_FILE (fst (refresh_parquet_from_csv f d)) = CONFIG_FILE d.
Proof.
  destruct (refresh_disk f d) as [-> | ->]; [reflexivity|].
  pose proof (incremental_update_cases f d) as H.
  destruct (incremental_update f d) as [d' r]; cbn.
  destruct H as [[-> _] | (h & src & cache & _ & _ & _ & _ & _ & Hc & _)];
    [reflexivity | exact Hc].
Qed.

Lemma load_data_window_config (f : Faults) (b : bool) (c h : Q) (d : Disk) :
  CONFIG_FILE (fst (fst (load_data_window f b c h d))) = CONFIG_FILE d.
Proof.
  unfold load_data_window. pose proof (refresh_config f d) as H.
  destruct (refresh_parquet_from_csv f d) as [d1 log1]; cbn in H.
  unfold read_table, bind, read.
  destruct b; [exact H|].
  destruct (PARQUET_FILE d1); exact H.
Qed.

(** A configuration that cannot be loaded leaves [x_range] unassigned and
    answers [None]. *)
Lemma load_plot_config_fails (failing : bool) (s : Session) :
  failing = true \/ CONFIG_FILE (disk s) = Missing \/
  CONFIG_FILE (disk s) = Garbled ->
  load_plot_config failing s =
  (mkSession (window s) (disk s) (stdout s ++ [Debug_failed_to_load_config]),
   inr None).
Proof.
  intros H. unfold load_plot_config, try_, read_config, read, bind.
  destruct H as [-> | [H | H]]; [reflexivity | |];
    destruct failing; try reflexivity; rewrite H; reflexivity.
Qed.

Lemma PlotWindow_new_unloadable (env : LoadEnv) (d : Disk) :
  fail_config env = true \/ CONFIG_FILE d = Missing \/
  CONFIG_FILE d = Garbled ->
  exists s, PlotWindow_new env d = (s, inr tt) /\
            frames (window s) = [] /\ x_range (window s) = Unset.
Proof.
  intros Hbad.
  unfold PlotWindow_new, load_data_and_create_plots.
  unfold bind at 1. unfold try_ at 1.
  unfold bind at 1. unfold on_window at 1. unfold get at 1.
  cbn [window disk stdout fst snd].
  unfold bind at 1. unfold load_window at 1. cbn [window disk stdout].
  pose proof (load_data_window_config (faults1 env) (fail_table1 env)
                (current_time PlotWindow_init) 60 d) as Hcfg.
  destruct (load_data_window (faults1 env) (fail_table1 env)
              (current_time PlotWindow_init) 60 d) as [[d1 df] lg].
  cbn in Hcfg.
  unfold bind at 1. unfold on_window at 1, modify at 1.
  cbn [window disk stdout fst snd].
  destruct (empty df).
  - cbn. eexists. split; [reflexivity|]. cbn. auto.
  - unfold bind at 1.
    rewrite load_plot_config_fails by (cbn [disk]; rewrite Hcfg; exact Hbad).
    cbn. eexists. split; [reflexivity|]. cbn. auto.
Qed.

(** C9: the code at a configuration file that cannot be loaded.  The
    constructor of the window returns without an exception, but with no plot
    at all: [load_plot_config] answers [None] without having assigned
    [x_range], the channel order falls back to the columns of the frame,
    and the next line reads [self.x_range], which raises AttributeError;
    the handler of [load_data_and_create_plots] prints it and returns
    before the loop that creates the plots.  This holds on every disk and
    under every environment.  With the configuration [{}], which assigns
    the defaults, the same disk gets its plot. *)
Theorem unloadable_config_creates_no_plot :
  (forall (env : LoadEnv) (d : Disk),
      fail_config env = true \/ CONFIG_FILE d = Missing \/
      CONFIG_FILE d = Garbled ->
      frames (window (fst (PlotWindow_new env d))) = [] /\
      x_range (window (fst (PlotWindow_new env d))) = Unset /\
      snd (PlotWindow_new env d) = inr tt) /\
  stdout (fst (PlotWindow_new quiet_env disk_bad_config))
    = [Debug_failed_to_load_config; Error_failed_to_load_csv AttributeError] /\
  plot_order (window (fst (PlotWindow_new quiet_env disk_bad_config)))
    = ["A"%string] /\
  current_time (window (fst (PlotWindow_new quiet_env disk_bad_config))) = 0 /\
  frames (window (fst (PlotWindow_new quiet_env disk_bad_config))) = [] /\
  frames (window (fst (PlotWindow_new quiet_env disk_bare_config)))
    = [mkFrame 0 "A"] /\
  x_range (window (fst (PlotWindow_new quiet_env disk_bare_config)))
    = Assigned None.
Proof.
  split; [|repeat split].
  intros env d Hbad.
  destruct (PlotWindow_new_unloadable env d Hbad) as (s & -> & Hf & Hx).
  auto.
Qed.

(** * Further properties of the columnar cache *)

(** An update in which no read and no write of the cache fails. *)
Lemma incremental_update_run (f : Faults) (d : Disk) (h : float)
    (src cache : DataFrame) :
  fail_read_time f = false -> fail_read_csv f = false ->
  fail_read_parquet f = false -> fail_write_parquet f = false ->
  TIME_FILE d = Holds h -> CSV_FILE d = Holds src -> columns src <> [] ->
  PARQUET_FILE d = Holds cache ->
  incremental_update f d =
  match new_rows src h with
  | [] => (d, inr false)
  | _ :: _ =>
      if fail_write_time f
      then (mkDisk (CSV_FILE d)
              (Holds (mkDF (columns cache) (rows cache ++ new_rows src h)))
              (TIME_FILE d) (CONFIG_FILE d), inl OSError)
      else (mkDisk (CSV_FILE d)
              (Holds (mkDF (columns cache) (rows cache ++ new_rows src h)))
              (Holds (time_max src)) (CONFIG_FILE d), inr true)
  end.
Proof.
  intros F1 F2 F3 F4 Hh Hs Hc Hp.
  unfold incremental_update, read_csv, rename_time, bind, read.
  rewrite F1, F2, F3, F4, Hh; cbn. rewrite Hs; cbn.
  destruct (columns src) as [|c0 cs]; [congruence|]. cbn.
  unfold empty, select_gt; cbn [rows columns]. fold (new_rows src h).
  destruct (new_rows src h) as [|r0 rs]; cbn; [reflexivity|].
  rewrite Hp. cbn. destruct (fail_write_time f); cbn; rewrite ?Hs, ?Hh;
    reflexivity.
Qed.

Lemma refresh_run (f : Faults) (d : Disk) (h : float)
    (src cache : DataFrame) :
  fail_read_time f = false -> fail_read_csv f = false ->
  fail_read_parquet f = false -> fail_write_parquet f = false ->
  TIME_FILE d = Holds h -> CSV_FILE d = Holds src -> columns src <> [] ->
  PARQUET_FILE d = Holds cache -> new_rows src h <> [] ->
  fst (refresh_parquet_from_csv f d) =
  mkDisk (CSV_FILE d)
         (Holds (mkDF (columns cache) (rows cache ++ new_rows src h)))
         (if fail_write_time f then TIME_FILE d else Holds (time_max src))
         (CONFIG_FILE d).
Proof.
  intros F1 F2 F3 F4 Hh Hs Hc Hp Hne.
  unfold refresh_parquet_from_csv. rewrite Hs, Hh. cbn.
  rewrite (incremental_update_run f d h src cache) by assumption.
  destruct (new_rows src h); [congruence|].
  destruct (fail_write_time f); cbn; rewrite ?Hs, ?Hh; reflexivity.
Qed.

(** X1.  A refresh whose write of the cache does not fail only ever appends
    to the cache: whatever the source holds and whatever read fails, the
    rows cached before stay, in their order, at the front, and every row
    added is a row of the source whose time compares greater than the mark.
    The same holds, for the front, along any sequence of such refreshes. *)
Theorem refresh_append_only (d : Disk) (cache : DataFrame) :
  PARQUET_FILE d = Holds cache ->
  (forall f, fail_write_parquet f = false ->
     exists extra,
      PARQUET_FILE (fst (refresh_parquet_from_csv f d))
        = Holds (mkDF (columns cache) (rows cache ++ extra)) /\
      forall r, In r extra ->
        exists src h, CSV_FILE d = Holds src /\ TIME_FILE d = Holds h /\
                      In r (rows src) /\ gt_float (time r) h = true) /\
  (forall rs,
     Forall (fun r => fail_write_parquet (snd r) = false) rs ->
     exists extra,
      PARQUET_FILE (refreshes rs d)
        = Holds (mkDF (columns cache) (rows cache ++ extra))).
Proof.
  intros Hp.
  assert (Hone : forall f d cache,
            fail_write_parquet f = false -> PARQUET_FILE d = Holds cache ->
            exists extra,
              PARQUET_FILE (fst (refresh_parquet_from_csv f d))
                = Holds (mkDF (columns cache) (rows cache ++ extra)) /\
              forall r, In r extra ->
                exists src h, CSV_FILE d = Holds src /\ TIME_FILE d = Holds h /\
                              In r (rows src) /\ gt_float (time r) h = true).
  { clear d cache Hp. intros f d cache _ Hp.
    assert (Hsame : Holds cache
                    = Holds (mkDF (columns cache) (rows cache ++ []))).
    { rewrite app_nil_r. now destruct cache. }
    destruct (refresh_disk f d) as [-> | ->].
    - exists []. rewrite Hp. split; [exact Hsame | intros r []].
    - pose proof (incremental_update_cases f d) as H.
      destruct (incremental_update f d) as [d' r]; cbn.
      destruct H as [[-> _] | (h & src & cache0 & Hh & Hs & Hp0 & _ & _ & _
                               & Hp' & _)].
      + exists []. rewrite Hp. split; [exact Hsame | intros r0 []].
      + rewrite Hp in Hp0. injection Hp0 as <-.
        exists (new_rows src h). split; [exact Hp'|].
        intros r0 Hin. apply filter_In in Hin as [Hin Hgt].
        exists src, h. auto. }
  split; [intros f Hf; now apply Hone|].
  intros rs. revert d cache Hp.
  induction rs as [|[src f] rs IH]; intros d cache Hp Hall.
  - exists []. cbn. rewrite Hp, app_nil_r. now destruct cache.
  - change (refreshes ((src, f) :: rs) d)
      with (refreshes rs (fst (refresh_parquet_from_csv f (set_csv src d)))).
    inversion Hall as [|x l Hf Hrest]; subst.
    destruct (Hone f (set_csv src d) cache Hf Hp) as (e1 & H1 & _).
    destruct (IH _ _ H1 Hrest) as (e2 & H2).
    exists (e1 ++ e2). cbn [columns rows] in H2.
    rewrite H2, app_assoc. reflexivity.
Qed.

Lemma refresh_append_only_witness :
  exists extra,
    PARQUET_FILE (fst (refresh_parquet_from_csv time_write_fails disk_behind))
      = Holds (mkDF (columns cache3) (rows cache3 ++ extra)).
Proof.
  destruct (proj1 (refresh_append_only disk_behind cache3 eq_refl)
              time_write_fails eq_refl)
    as (extra & H & _).
  exists extra. exact H.
Defined.

(** X2.  A refresh never creates the cache: while the cache file is absent
    every refresh leaves the whole disk as it is, whatever the source and
    the mark hold. *)
Theorem refresh_never_creates_cache (f : Faults) (d : Disk) :
  PARQUET_FILE d = Missing -> fst (refresh_parquet_from_csv f d) = d.
Proof.
  intros Hp. destruct (refresh_disk f d) as [E | ->]; [assumption|].
  pose proof (incremental_update_cases f d) as H.
  destruct (incremental_update f d) as [d' r]; cbn.
  destruct H as [[-> _] | (h & src & cache & _ & _ & Hp0 & _)];
    [reflexivity | congruence].
Qed.

Lemma refresh_never_creates_cache_witness :
  fst (refresh_parquet_from_csv no_faults
         (mkDisk (Holds source5) Missing (Holds (Fin 2)) Missing))
  = mkDisk (Holds source5) Missing (Holds (Fin 2)) Missing.
Proof.
  exact (refresh_never_creates_cache no_faults
           (mkDisk (Holds source5) Missing (Holds (Fin 2)) Missing) eq_refl).
Defined.

(** X3.  When the write of the last-time file fails after the cache was
    written back, the next refresh that succeeds appends the same new rows a
    second time: the cache then holds them twice. *)
Theorem refresh_after_failed_mark_write_duplicates (d : Disk) (h : float)
    (src cache : DataFrame) :
  CSV_FILE d = Holds src -> columns src <> [] ->
  PARQUET_FILE d = Holds cache -> TIME_FILE d = Holds h ->
  new_rows src h <> [] ->
  fst (refresh_parquet_from_csv no_faults
         (fst (refresh_parquet_from_csv time_write_fails d)))
  = mkDisk (CSV_FILE d)
      (Holds (mkDF (columns cache)
                   (rows cache ++ new_rows src h ++ new_rows src h)))
      (Holds (time_max src)) (CONFIG_FILE d).
Proof.
  intros Hs Hc Hp Hh Hne.
  rewrite (refresh_run time_write_fails d h src cache) by auto.
  cbn [fail_write_time time_write_fails].
  rewrite (refresh_run no_faults _ h src
             (mkDF (columns cache) (rows cache ++ new_rows src h)))
    by (cbn; auto).
  cbn. rewrite <- app_assoc. reflexivity.
Qed.

Lemma refresh_after_failed_mark_write_duplicates_witness :
  PARQUET_FILE (fst (refresh_parquet_from_csv no_faults
                  (fst (refresh_parquet_from_csv time_write_fails
                          disk_behind))))
  = Holds (mkDF ["time"; "A"]%string
             [sample 0 0; sample 1 0; sample 2 1;
              sample 3 1; sample 4 0; sample 3 1; sample 4 0]).
Proof.
  rewrite (refresh_after_failed_mark_write_duplicates disk_behind (Fin 2)
             source5 cache3 eq_refl ltac:(discriminate) eq_refl eq_refl
             ltac:(discriminate)).
  reflexivity.
Defined.

Lemma refreshes_cons (src : file DataFrame) (f : Faults)
    (rs : list (file DataFrame * Faults)) (d : Disk) :
  refreshes ((src, f) :: rs) d
  = refreshes rs (fst (refresh_parquet_from_csv f (set_csv src d))).
Proof. reflexivity. Qed.

(** Under a NaN mark a sequence of refreshes changes nothing but the source
    itself. *)
Lemma refreshes_under_nan_mark (rs : list (file DataFrame * Faults))
    (d : Disk) :
  TIME_FILE d = Holds NaN ->
  PARQUET_FILE (refreshes rs d) = PARQUET_FILE d /\
  TIME_FILE (refreshes rs d) = Holds NaN.
Proof.
  revert d. induction rs as [|[src f] rs IH]; intros d Hn.
  - split; [reflexivity | exact Hn].
  - rewrite refreshes_cons.
    rewrite (refresh_under_nan_mark f (set_csv src d)) by exact Hn.
    apply (IH (set_csv src d)). exact Hn.
Qed.

(** X4.  A first launch, or any launch that finds the cache or the last-time
    file missing, in which nothing fails, replaces the cache by the whole
    source, its first column renamed to [time], whatever the cache held
    before, and sets the mark to the maximum time of the source. *)
Theorem first_launch_rebuilds_cache (d : Disk) (src : DataFrame)
    (c0 : string) (cs : list string) :
  PARQUET_FILE d = Missing \/ TIME_FILE d = Missing ->
  CSV_FILE d = Holds src -> columns src = c0 :: cs ->
  main_bootstrap no_faults d =
  (mkDisk (CSV_FILE d) (Holds (mkDF ("time"%string :: cs) (rows src)))
          (Holds (time_max src)) (CONFIG_FILE d),
   inr (mkDF ("time"%string :: cs) (rows src))).
Proof.
  intros Hm Hs Hcols. unfold main_bootstrap.
  assert (Hc : negb (exists_ (PARQUET_FILE d))
               || negb (exists_ (TIME_FILE d)) = true).
  { destruct Hm as [-> | ->]; [reflexivity | apply orb_true_r]. }
  rewrite Hc.
  unfold read_csv, rename_time, bind, read; cbn. rewrite Hs; cbn.
  rewrite Hcols; cbn. rewrite ?Hs. reflexivity.
Qed.

Lemma first_launch_rebuilds_cache_witness :
  PARQUET_FILE (fst (main_bootstrap no_faults disk_mark_lost))
    = Holds (mkDF ["time"; "A"]%string (rows source5)) /\
  TIME_FILE (fst (main_bootstrap no_faults disk_mark_lost)) = Holds (Fin 4).
Proof.
  rewrite (first_launch_rebuilds_cache disk_mark_lost source5 "t" ["A"%string]
             (or_intror eq_refl) eq_refl eq_refl).
  split; reflexivity.
Defined.

(** X5.  After a first launch on a source that has a header but no sample
    the mark is NaN, and from then on no refresh ingests anything: however
    the source grows and whatever sequence of refreshes follows, the cache
    stays without rows and the mark stays NaN. *)
Theorem empty_source_launch_blocks_ingestion (d : Disk) (src : DataFrame)
    (c0 : string) (cs : list string)
    (rs : list (file DataFrame * Faults)) :
  PARQUET_FILE d = Missing \/ TIME_FILE d = Missing ->
  CSV_FILE d = Holds src -> columns src = c0 :: cs -> rows src = [] ->
  PARQUET_FILE (refreshes rs (fst (main_bootstrap no_faults d)))
    = Holds (mkDF ("time"%string :: cs) []) /\
  TIME_FILE (refreshes rs (fst (main_bootstrap no_faults d))) = Holds NaN.
Proof.
  intros Hm Hs Hcols Hrows.
  assert (Hc : negb (exists_ (PARQUET_FILE d))
               || negb (exists_ (TIME_FILE d)) = true).
  { destruct Hm as [-> | ->]; [reflexivity | apply orb_true_r]. }
  rewrite (bootstrap_ingests d src c0 cs Hc Hs Hcols).
  rewrite Hrows, (time_max_nil src Hrows).
  destruct (refreshes_under_nan_mark rs
              (mkDisk (CSV_FILE d) (Holds (mkDF ("time"%string :: cs) []))
                      (Holds NaN) (CONFIG_FILE d)) eq_refl) as [H1 H2].
  split; assumption.
Qed.

Lemma empty_source_launch_blocks_ingestion_witness :
  PARQUET_FILE
    (refreshes [(Holds source5, no_faults); (Holds source5, no_faults)]
       (fst (main_bootstrap no_faults disk_first_empty)))
  = Holds (mkDF ["time"; "A"]%string []).
Proof.
  exact (proj1 (empty_source_launch_blocks_ingestion disk_first_empty source0
                  "t" ["A"%string]
                  [(Holds source5, no_faults); (Holds source5, no_faults)]
                  (or_introl eq_refl) eq_refl eq_refl eq_refl)).
Defined.

(** ** Order of the cache *)

Lemma time_le_trans (a b c : Row) : time_le a b -> time_le b c -> time_le a c.
Proof. unfold time_le. apply Qle_trans. Qed.

Lemma sorted_strongly (l : list Row) :
  sorted_by_time l <-> StronglySorted time_le l.
Proof.
  split.
  - apply Sorted_StronglySorted. intros a b c. apply time_le_trans.
  - apply StronglySorted_Sorted.
Qed.

Lemma sorted_filter (p : Row -> bool) (l : list Row) :
  sorted_by_time l -> sorted_by_time (filter p l).
Proof.
  rewrite !sorted_strongly.
  induction 1 as [|a l Hs IH Ha]; cbn; [constructor|].
  destruct (p a); [|assumption]. constructor; [assumption|].
  rewrite Forall_forall in *. intros x Hx. apply filter_In in Hx as [Hx _].
  auto.
Qed.

Lemma sorted_app (l1 l2 : list Row) :
  sorted_by_time l1 -> sorted_by_time l2 ->
  (forall a b, In a l1 -> In b l2 -> time a <= time b) ->
  sorted_by_time (l1 ++ l2).
Proof.
  rewrite !sorted_strongly. intros H1 H2 Hall.
  induction H1 as [|a l Hs IH Ha]; cbn; [assumption|].
  constructor.
  - apply IH. intros x y Hx Hy. apply Hall; [now right | assumption].
  - rewrite Forall_forall in *. intros x Hx.
    apply in_app_or in Hx as [Hx | Hx]; [now apply Ha|].
    apply Hall; [now left | assumption].
Qed.

(** X6.  With a source in ascending time order, a refresh in which the write
    of the last-time file does not fail keeps the cache in ascending time
    order with no row above a finite mark; and the frame that
    [load_data_window] then returns is in ascending time order too. *)
Theorem refresh_keeps_cache_in_order (f : Faults) (d : Disk) :
  cache_in_order d ->
  (forall src, CSV_FILE d = Holds src -> sorted_by_time (rows src)) ->
  fail_write_time f = false ->
  cache_in_order (fst (refresh_parquet_from_csv f d)) /\
  forall fail_read_table center half,
    sorted_by_time
      (rows (snd (fst (load_data_window f fail_read_table center half d)))).
Proof.
  intros (cache & Hp & Hsorted & Hbound) Hsrc Hf.
  assert (Hinv : cache_in_order (fst (refresh_parquet_from_csv f d))).
  { destruct (refresh_disk f d) as [-> | ->]; [exists cache; auto|].
    pose proof (incremental_update_cases f d) as H.
    destruct (incremental_update f d) as [d' r]; cbn.
    destruct H as [[-> _] | (h & src & cache0 & Hh & Hs & Hp0 & Hne & _ & _
                             & Hp' & [(_ & _ & Hf') | (Ht & _)])].
    - exists cache; auto.
    - congruence.
    - rewrite Hp in Hp0. injection Hp0 as <-.
      destruct (new_rows_max src h Hne) as (hq & rm & -> & Hin & Hmax & Hlt).
      destruct (time_max_spec src) as (rm' & _ & Hmax' & Hall).
      { intro E. unfold new_rows in Hne. rewrite E in Hne. now apply Hne. }
      eexists. split; [exact Hp'|]. cbn [rows]. split.
      + apply sorted_app; [assumption | apply sorted_filter; now apply Hsrc|].
        intros a b Ha Hb. apply filter_In in Hb as [_ Hb]. cbn in Hb.
        apply Qlt_bool_iff in Hb. apply Qlt_le_weak.
        eapply Qle_lt_trans; [apply (Hbound hq Hh a Ha) | exact Hb].
      + intros m Hm r0 Hr0. rewrite Ht, Hmax' in Hm. injection Hm as <-.
        apply in_app_or in Hr0 as [Hr0 | Hr0].
        * apply Qle_trans with hq; [now apply (Hbound hq Hh)|].
          rewrite Hmax in Hmax'. injection Hmax' as E. rewrite <- E.
          now apply Qlt_le_weak.
        * apply filter_In in Hr0 as [Hr0 _]. now apply Hall. }
  split; [exact Hinv|].
  intros frt center half. unfold load_data_window.
  destruct (refresh_parquet_from_csv f d) as [d1 log1]; cbn [fst] in Hinv.
  destruct Hinv as (cache1 & Hp1 & Hs1 & _).
  unfold read_table, bind, read. destruct frt; cbn; [constructor|].
  rewrite Hp1. cbn. now apply sorted_filter.
Qed.

Lemma refresh_keeps_cache_in_order_witness :
  cache_in_order (fst (refresh_parquet_from_csv no_faults disk_behind)).
Proof.
  refine (proj1 (refresh_keeps_cache_in_order no_faults disk_behind _ _
                   eq_refl)).
  - exists cache3. split; [reflexivity|]. split.
    + unfold sorted_by_time, time_le. cbn.
      repeat constructor; cbn; discriminate.
    + intros h Hh r Hr. injection Hh as <-.
      cbn in Hr. destruct Hr as [<- | [<- | [<- | []]]]; cbn; discriminate.
  - intros src Hs. injection Hs as <-.
    unfold sorted_by_time, time_le. cbn.
    repeat constructor; cbn; discriminate.
Defined.

(** * Further properties of the cursor *)

(** The status line changes nothing but the label itself. *)
Lemma update_top_label_keeps {X} (attribute : PlotWindow -> X) :
  (forall v w, attribute (set_time_label v w) = attribute w) ->
  keeps attribute update_top_label.
Proof.
  intros H. unfold update_top_label.
  repeat first [ apply keeps_modify; intros; apply H | keeps_step ].
Qed.

Ltac keeps_tac :=
  repeat first [ apply update_top_label_keeps; intros; reflexivity
               | keeps_step ].

Ltac keeps_rest :=
  match goal with
  | |- ?attribute (fst (?m ?w)) = _ =>
      let K := fresh "K" in
      assert (K : keeps attribute m) by keeps_tac;
      rewrite (K w)
  end.

Lemma bind_assoc {S A B C} (m : St S A) (k1 : A -> St S B)
    (k2 : B -> St S C) (s : S) :
  bind (bind m k1) k2 s = bind m (fun a => bind (k1 a) k2) s.
Proof. unfold bind. destruct (m s) as [s1 [e | a]]; reflexivity. Qed.

Lemma bind_modify {S B} (f : S -> S) (k : unit -> St S B) (s : S) :
  bind (modify f) k s = k tt (f s).
Proof. reflexivity. Qed.

Lemma bind_get {S B} (k : S -> St S B) (s : S) : bind get k s = k s s.
Proof. reflexivity. Qed.

Lemma bind_ret {S A B} (a : A) (k : A -> St S B) (s : S) :
  bind (ret a) k s = k a s.
Proof. reflexivity. Qed.

(** Pointer movement while the cursor is locked, or outside the plot. *)
Lemma pointer_stays (inside_plot : bool) (x : Q) (frame : PlotFrame)
    (w : PlotWindow) :
  cursor_locked w = true \/ inside_plot = false ->
  current_time (fst (handle_mouse_move inside_plot x frame w))
    = current_time w /\
  active_frame (fst (handle_mouse_move inside_plot x frame w))
    = active_frame w.
Proof.
  intros Hstay.
  assert (Hc : inside_plot && negb (cursor_locked w) = false).
  { destruct Hstay as [-> | ->]; [apply andb_false_r | reflexivity]. }
  unfold handle_mouse_move. rewrite !bind_get.
  destruct (data w) as [df|]; [|split; reflexivity].
  rewrite Hc, !bind_ret. split; keeps_rest; reflexivity.
Qed.

(** X7.  Pointer movement respects the lock.  It never changes the lock
    itself.  While the cursor is locked, or when the pointer is outside the
    plot, it leaves the cursor time and the active frame as they are.  With
    the cursor unlocked and the pointer inside the plot of a loaded window,
    the cursor time becomes the hovered x and the hovered frame becomes the
    active one, also when a later lookup of the handler raises. *)
Theorem pointer_respects_lock :
  (forall inside_plot x frame w,
      cursor_locked (fst (handle_mouse_move inside_plot x frame w))
      = cursor_locked w) /\
  (forall inside_plot x frame w,
      cursor_locked w = true \/ inside_plot = false ->
      current_time (fst (handle_mouse_move inside_plot x frame w))
        = current_time w /\
      active_frame (fst (handle_mouse_move inside_plot x frame w))
        = active_frame w) /\
  (forall x frame w df,
      cursor_locked w = false -> data w = Some df ->
      current_time (fst (handle_mouse_move true x frame w)) = x /\
      active_frame (fst (handle_mouse_move true x frame w)) = Some frame).
Proof.
  split; [|split].
  - intros inside_plot x frame w. revert w.
    change (keeps cursor_locked (handle_mouse_move inside_plot x frame)).
    unfold handle_mouse_move. keeps_tac.
  - intros inside_plot x frame w. apply pointer_stays.
  - intros x frame w df Hl Hd.
    unfold handle_mouse_move. rewrite !bind_get, Hd, Hl. cbn [andb negb].
    rewrite !bind_assoc, !bind_modify.
    split; keeps_rest; reflexivity.
Qed.


(** The lock after a click without Control. *)
Lemma plain_click_lock (ev : MouseEvent) (pw : nat) (w : PlotWindow) :
  ctrl ev = false ->
  cursor_locked (after_click ev pw w) = negb (cursor_locked w).
Proof.
  intros Hc. unfold after_click, on_mouse_click. rewrite Hc, bind_modify.
  keeps_rest. reflexivity.
Qed.

(** The cursor after a click without Control on a plot of the window. *)
Lemma plain_click_cursor (ev : MouseEvent) (pw : nat) (w : PlotWindow)
    (af : PlotFrame) :
  ctrl ev = false -> frame_of (frames w) pw = Some af ->
  current_time (after_click ev pw w) = view_x ev /\
  active_frame (after_click ev pw w) = Some af.
Proof.
  intros Hc Hf. unfold after_click, on_mouse_click.
  rewrite Hc, bind_modify, bind_get, bind_modify.
  cbn [frames set_cursor_locked]. rewrite Hf, bind_modify.
  split; keeps_rest; reflexivity.
Qed.

(** X8.  A click without Control toggles the lock, whatever else happens in
    the handler.  On a plot of the window it moves the cursor to the clicked
    x itself, not to the time of a sample, and makes the frame of the plot
    the active one; on a widget that is no plot of the window it leaves the
    cursor where it was and leaves no frame active.  After such a click on
    an unlocked window the cursor is pinned: no pointer movement moves it,
    until a second click releases the lock. *)
Theorem click_pins_cursor :
  (forall ev pw w,
      ctrl ev = false ->
      cursor_locked (after_click ev pw w) = negb (cursor_locked w)) /\
  (forall ev pw w af,
      ctrl ev = false -> frame_of (frames w) pw = Some af ->
      current_time (after_click ev pw w) = view_x ev /\
      active_frame (after_click ev pw w) = Some af) /\
  (forall ev pw w,
      ctrl ev = false -> frame_of (frames w) pw = None ->
      current_time (after_click ev pw w) = current_time w /\
      active_frame (after_click ev pw w) = None) /\
  (forall ev pw w af inside_plot x frame ev' pw',
      ctrl ev = false -> cursor_locked w = false ->
      frame_of (frames w) pw = Some af -> ctrl ev' = false ->
      current_time
        (fst (handle_mouse_move inside_plot x frame (after_click ev pw w)))
        = view_x ev /\
      cursor_locked
        (after_click ev' pw'
           (fst (handle_mouse_move inside_plot x frame
                   (after_click ev pw w)))) = false).
Proof.
  split; [|split; [|split]].
  - intros ev pw w. apply plain_click_lock.
  - intros ev pw w af. apply plain_click_cursor.
  - intros ev pw w Hc Hf. unfold after_click, on_mouse_click.
    rewrite Hc, bind_modify, bind_get, bind_modify.
    cbn [frames set_cursor_locked]. rewrite Hf. split; reflexivity.
  - intros ev pw w af inside_plot x frame ev' pw' Hc Hl Hf Hc'.
    assert (Hlocked : cursor_locked (after_click ev pw w) = true).
    { rewrite plain_click_lock by assumption. now rewrite Hl. }
    split.
    + rewrite (proj1 (pointer_stays inside_plot x frame _
                        (or_introl Hlocked))).
      now apply (plain_click_cursor ev pw w af).
    + rewrite plain_click_lock by assumption.
      assert (K : keeps cursor_locked (handle_mouse_move inside_plot x frame))
        by (unfold handle_mouse_move; keeps_tac).
      rewrite K, Hlocked. reflexivity.
Qed.

(** * Further properties of the delta selection *)

(** The first pick of a selection only records the point and its plot. *)
Lemma first_pick_state (w : PlotWindow) (pw : nat) (x : Q) :
  delta_points w = [] ->
  after_click (ctrl_click x) pw w
  = set_delta_plot (Some pw) (set_delta_points [x] w).
Proof.
  intros Hp. unfold after_click, on_mouse_click, ctrl_click.
  cbn [ctrl inside view_x].
  rewrite !bind_modify, bind_get.
  cbn [delta_points set_delta_points set_delta_plot]. rewrite Hp.
  cbn [app List.length Nat.ltb Nat.leb]. rewrite bind_ret.
  unfold draw_delta_lines. rewrite bind_get.
  cbn [delta_points set_delta_points set_delta_plot]. reflexivity.
Qed.

(** The second pick records the point and draws. *)
Lemma second_pick_state (w : PlotWindow) (pw : nat) (p x : Q) :
  delta_points w = [p] ->
  after_click (ctrl_click x) pw w
  = fst (draw_delta_lines pw
           (set_delta_plot (Some pw) (set_delta_points [p; x] w))).
Proof.
  intros Hp. unfold after_click, on_mouse_click, ctrl_click.
  cbn [ctrl inside view_x].
  rewrite !bind_modify, bind_get.
  cbn [delta_points set_delta_points set_delta_plot]. rewrite Hp.
  cbn [app List.length Nat.ltb Nat.leb]. rewrite bind_ret.
  reflexivity.
Qed.

(** Drawing for a selection of two points on a plot of a loaded window. *)
Lemma draw_delta_lines_run (pw : nat) (w : PlotWindow) (p1 p2 lo hi : Q)
    (f : PlotFrame) (df : DataFrame) (times ys : list Q) (i1 i2 : nat)
    (t1 t2 y1 y2 : Q) :
  delta_points w = [p1; p2] -> data w = Some df ->
  frame_of (frames w) pw = Some f ->
  (if Qlt_bool p2 p1 then (p2, p1) else (p1, p2)) = (lo, hi) ->
  time_column df = Some times ->
  nearest_index times lo = Some i1 -> nearest_index times hi = Some i2 ->
  nth_error times i1 = Some t1 -> nth_error times i2 = Some t2 ->
  column df (var_name f) = Some ys ->
  nth_error ys i1 = Some y1 -> nth_error ys i2 = Some y2 ->
  draw_delta_lines pw w
  = (set_cursor_info_label
       (mkDeltaInfo (Qabs (t2 - t1)) (y2 - y1) t1 t2 y1 y2)
       (set_delta_lines [VLine t1; VLine t2; HLine y1; HLine y2]
          (set_delta_lines [] w)),
     inr tt).
Proof.
  intros Hp Hd Hf Hs Ht Hi1 Hi2 Ht1 Ht2 Hy Hy1 Hy2.
  unfold draw_delta_lines. rewrite bind_get, Hp, Hd, bind_modify.
  cbn [frames set_delta_lines]. rewrite Hf, Hs.
  unfold bind, or_raise, ret, modify.
  rewrite Ht, Hi1, Hi2, Ht1, Ht2, Hy, Hy1, Hy2. reflexivity.
Qed.

(** X9.  On a plot of a loaded window, a selection completed by the picks
    [a] and [b], [a < b], shows the same whichever was picked first: with
    [t1], [y1] the time and the value of the plot's channel in the row
    nearest to [a], and [t2], [y2] those in the row nearest to [b], the
    readout is dt = |t2 - t1|, dy = y2 - y1, X1 = t1, X2 = t2, Y1 = y1,
    Y2 = y2 and the lines stand at t1, t2, y1, y2.  The values are taken at
    the smaller position first: dy is the value at the later position minus
    the value at the earlier one, not second pick minus first pick. *)
Theorem delta_readout_ignores_pick_order (w : PlotWindow) (pw : nat)
    (a b : Q) (f : PlotFrame) (df : DataFrame) (times ys : list Q) :
  delta_points w = [] -> a < b ->
  data w = Some df -> frame_of (frames w) pw = Some f ->
  time_column df = Some times -> times <> [] ->
  column df (var_name f) = Some ys ->
  exists i1 i2 t1 t2 y1 y2,
    nearest_index times a = Some i1 /\ nearest_index times b = Some i2 /\
    nth_error times i1 = Some t1 /\ nth_error times i2 = Some t2 /\
    nth_error ys i1 = Some y1 /\ nth_error ys i2 = Some y2 /\
    cursor_info_label
      (after_click (ctrl_click b) pw (after_click (ctrl_click a) pw w))
    = mkDeltaInfo (Qabs (t2 - t1)) (y2 - y1) t1 t2 y1 y2 /\
    cursor_info_label
      (after_click (ctrl_click a) pw (after_click (ctrl_click b) pw w))
    = mkDeltaInfo (Qabs (t2 - t1)) (y2 - y1) t1 t2 y1 y2 /\
    delta_lines
      (after_click (ctrl_click b) pw (after_click (ctrl_click a) pw w))
    = [VLine t1; VLine t2; HLine y1; HLine y2] /\
    delta_lines
      (after_click (ctrl_click a) pw (after_click (ctrl_click b) pw w))
    = [VLine t1; VLine t2; HLine y1; HLine y2].
Proof.
  intros Hp Hab Hd Hf Ht Hne Hy.
  assert (E1 : Qlt_bool b a = false).
  { apply Qlt_bool_false_iff. now apply Qlt_le_weak. }
  assert (E2 : Qlt_bool a b = true) by now apply Qlt_bool_iff.
  destruct (nearest_index_some times a Hne) as (i1 & t1 & Hi1 & Ht1).
  destruct (nearest_index_some times b Hne) as (i2 & t2 & Hi2 & Ht2).
  assert (Hlen : List.length ys = List.length times).
  { rewrite (column_length _ _ _ Hy), (time_column_length _ _ Ht).
    reflexivity. }
  destruct (nth_error_in_range ys i1) as [y1 Hy1].
  { rewrite Hlen. apply nth_error_Some. congruence. }
  destruct (nth_error_in_range ys i2) as [y2 Hy2].
  { rewrite Hlen. apply nth_error_Some. congruence. }
  exists i1, i2, t1, t2, y1, y2.
  repeat (split; [assumption|]).
  rewrite (first_pick_state w pw a Hp), (first_pick_state w pw b Hp).
  rewrite (second_pick_state _ pw a b) by reflexivity.
  rewrite (second_pick_state _ pw b a) by reflexivity.
  rewrite (draw_delta_lines_run pw _ a b a b f df times ys i1 i2 t1 t2 y1 y2)
    by (cbn; auto; now rewrite E1).
  rewrite (draw_delta_lines_run pw _ b a a b f df times ys i1 i2 t1 t2 y1 y2)
    by (cbn; auto; now rewrite E2).
  repeat split.
Qed.

Lemma delta_readout_ignores_pick_order_witness :
  cursor_info_label
    (after_click (ctrl_click 1) 1 (after_click (ctrl_click 4) 1 two_plot_window))
  = mkDeltaInfo 3 40 1 4 10 50.
Proof.
  destruct (delta_readout_ignores_pick_order two_plot_window 1 1 4
              (mkFrame 1 "B") two_channel_frame [0; 1; 2; 3; 4; 5]
              [10; 10; 30; 30; 50; 50] eq_refl eq_refl eq_refl eq_refl eq_refl)
    as (i1 & i2 & t1 & t2 & y1 & y2 & Hi1 & Hi2 & Ht1 & Ht2 & Hy1 & Hy2
        & _ & -> & _).
  - discriminate.
  - reflexivity.
  - vm_compute in Hi1. injection Hi1 as <-.
    vm_compute in Hi2. injection Hi2 as <-.
    vm_compute in Ht1. injection Ht1 as <-.
    vm_compute in Ht2. injection Ht2 as <-.
    vm_compute in Hy1. injection Hy1 as <-.
    vm_compute in Hy2. injection Hy2 as <-.
    vm_compute. reflexivity.
Defined.

(** * The y range of a plot *)

Lemma fold_np_min2_nan (l : list float) : fold_left np_min2 l NaN = NaN.
Proof. induction l as [|b l IH]; [reflexivity | exact IH]. Qed.

Lemma fold_np_max2_nan (l : list float) : fold_left np_max2 l NaN = NaN.
Proof. induction l as [|b l IH]; [reflexivity | exact IH]. Qed.

(** A NaN anywhere in the array makes its minimum and its maximum NaN. *)
Lemma fold_np_nan (l : list float) (a : float) :
  In NaN (a :: l) ->
  fold_left np_min2 l a = NaN /\ fold_left np_max2 l a = NaN.
Proof.
  revert a. induction l as [|b l IH]; intros a Hin.
  - destruct Hin as [-> | []]. split; reflexivity.
  - cbn [fold_left]. destruct Hin as [-> | Hin].
    + cbn. split; [apply fold_np_min2_nan | apply fold_np_max2_nan].
    + destruct a as [x|]; [|split;
        [apply fold_np_min2_nan | apply fold_np_max2_nan]].
      destruct b as [y|]; [|split;
        [apply fold_np_min2_nan | apply fold_np_max2_nan]].
      destruct Hin as [Hb | Hin]; [discriminate|].
      split; apply IH; now right.
Qed.

(** On finite cells the reductions give a lower and an upper bound. *)
Lemma fold_np_fin (l : list float) (x : Q) :
  (forall v, In v l -> v <> NaN) ->
  exists lo hi,
    fold_left np_min2 l (Fin x) = Fin lo /\
    fold_left np_max2 l (Fin x) = Fin hi /\
    lo <= x /\ x <= hi /\
    forall q, In (Fin q) l -> lo <= q /\ q <= hi.
Proof.
  revert x. induction l as [|b l IH]; intros x Hfin.
  - exists x, x. split; [reflexivity|]. split; [reflexivity|].
    split; [apply Qle_refl|]. split; [apply Qle_refl|]. intros q [].
  - destruct b as [y|]; [|exfalso; now apply (Hfin NaN (or_introl eq_refl))].
    assert (Hfin' : forall v, In v l -> v <> NaN)
      by (intros v Hv; apply Hfin; now right).
    cbn [fold_left np_min2 np_max2].
    destruct (IH (if Qle_bool x y then x else y) Hfin')
      as (lo & hi0 & Hlo & _ & Hlo1 & _ & Hlo2).
    destruct (IH (if Qle_bool x y then y else x) Hfin')
      as (lo0 & hi & _ & Hhi & _ & Hhi1 & Hhi2).
    exists lo, hi. split; [assumption|]. split; [assumption|].
    assert (Hxy : (Qle_bool x y = true /\ x <= y) \/
                  (Qle_bool x y = false /\ y <= x)).
    { destruct (Qle_bool x y) eqn:E.
      - left. split; [reflexivity | now apply Qle_bool_iff].
      - right. split; [reflexivity|]. apply Qlt_le_weak, Qlt_bool_iff.
        unfold Qlt_bool. now rewrite E. }
    assert (Hq : forall q, In (Fin q) l -> lo <= q /\ q <= hi).
    { intros q Hq. split; [apply (Hlo2 q Hq) | apply (Hhi2 q Hq)]. }
    destruct Hxy as [[E Hle] | [E Hle]]; rewrite E in *.
    + split; [assumption|]. split; [lra|].
      intros q [H | H]; [injection H as <-; split; lra | now apply Hq].
    + split; [lra|]. split; [assumption|].
      intros q [H | H]; [injection H as <-; split; lra | now apply Hq].
Qed.

Lemma py_max_nonneg (a b : Q) : 0 <= a -> 0 <= py_max a b.
Proof.
  intros Ha. unfold py_max. destruct (Qlt_bool a b) eqn:E; [|assumption].
  apply Qlt_bool_iff in E. apply Qlt_le_weak.
  eapply Qle_lt_trans; eassumption.
Qed.

(** X10.  [calculate_y_range] raises ValueError on an empty array; on an
    array that holds a NaN it answers the fixed range (-0.5, 1.5); on a
    non-empty array of finite values it answers a range that contains every
    value of the array. *)
Theorem calculate_y_range_contains :
  calculate_y_range [] = inl ValueError /\
  (forall y, In NaN y -> calculate_y_range y = inr (- (1 # 2), 3 # 2)) /\
  (forall y, y <> [] -> (forall v, In v y -> v <> NaN) ->
     exists lo hi,
       calculate_y_range y = inr (lo, hi) /\
       forall q, In (Fin q) y -> lo <= q /\ q <= hi).
Proof.
  split; [reflexivity|]. split.
  - intros y Hin. destruct y as [|a l]; [inversion Hin|].
    unfold calculate_y_range, np_min, np_max.
    destruct (fold_np_nan l a Hin) as [E1 E2]. rewrite E1. reflexivity.
  - intros y Hne Hfin. destruct y as [|a l]; [congruence|].
    destruct a as [x|]; [|exfalso; now apply (Hfin NaN (or_introl eq_refl))].
    destruct (fold_np_fin l x) as (lo & hi & Hlo & Hhi & Hx1 & Hx2 & Hall).
    { intros v Hv. apply Hfin. now right. }
    unfold calculate_y_range, np_min, np_max. rewrite Hlo, Hhi.
    eexists _, _. split; [reflexivity|].
    assert (Hpad : 0 <= py_max (Qabs lo) (Qabs hi) * (1 # 5)).
    { apply Qmult_le_0_compat; [|discriminate].
      apply py_max_nonneg, Qabs_nonneg. }
    intros q [Hq | Hq].
    + injection Hq as <-. split; lra.
    + destruct (Hall q Hq). split; lra.
Qed.

(** * Downsampling *)

(** The slice keeps the elements at the positions [k], [k + stride],
    [k + 2 stride], ... *)
Lemma every_from_nth {A} (stride : nat) (l : list A) (k j : nat) :
  (1 <= stride)%nat ->
  nth_error (every_from stride k l) j = nth_error l (k + j * stride).
Proof.
  intros Hs. revert k j. induction l as [|a l IH]; intros k j; cbn.
  - destruct j, (k + _)%nat; destruct k; reflexivity.
  - destruct k as [|k].
    + destruct j as [|j]; [reflexivity|]. cbn [nth_error]. rewrite IH.
      replace (0 + S j * stride)%nat with (S (stride - 1 + j * stride))
        by lia.
      reflexivity.
    + rewrite IH. reflexivity.
Qed.

Lemma every_from_length {A B} (stride : nat) (l : list A) (l' : list B)
    (k : nat) :
  List.length l = List.length l' ->
  List.length (every_from stride k l) = List.length (every_from stride k l').
Proof.
  revert l' k. induction l as [|a l IH]; intros [|b l'] k Hlen;
    try discriminate; [reflexivity|].
  injection Hlen as Hlen. cbn. destruct k; cbn; auto.
Qed.

(** X11.  The downsampling of a redraw leaves an array of at most
    [max_points] elements as it is and divides by zero on a longer one when
    [max_points] is 0.  Otherwise it keeps exactly the elements at the
    multiples of [stride = len // max_points], the first one included, so
    that between [max_points] and [2 * max_points] elements remain, never
    fewer than [max_points]; and two arrays of one length, the x and the y
    of a plot, come out with one length. *)
Theorem downsample_spec :
  (forall (A : Type) (max_points : nat) (x : list A),
      (List.length x <= max_points)%nat -> downsample max_points x = Some x) /\
  (forall (A : Type) (x : list A), x <> [] -> downsample 0 x = None) /\
  (forall (A : Type) (max_points : nat) (x : list A),
      (1 <= max_points)%nat -> (max_points < List.length x)%nat ->
      exists r,
        downsample max_points x = Some r /\
        (forall j, nth_error r j
                   = nth_error x (j * (List.length x / max_points))) /\
        (max_points <= List.length r)%nat /\
        (List.length r <= 2 * max_points)%nat) /\
  (forall (A B : Type) (max_points : nat) (x : list A) (y : list B),
      List.length x = List.length y ->
      option_map (@List.length A) (downsample max_points x)
      = option_map (@List.length B) (downsample max_points y)).
Proof.
  split; [|split; [|split]].
  - intros A m x Hle. unfold downsample.
    apply Nat.ltb_ge in Hle. now rewrite Hle.
  - intros A x Hne. unfold downsample. destruct x; [congruence | reflexivity].
  - intros A m x Hm Hlt. unfold downsample.
    apply Nat.ltb_lt in Hlt as Hb. rewrite Hb.
    destruct m as [|m']; [lia|].
    set (m := S m') in *. set (n := List.length x) in *.
    set (s := (n / m)%nat).
    assert (Hs1 : (1 <= s)%nat).
    { unfold s. apply Nat.div_le_lower_bound; lia. }
    assert (Hlo : (m * s <= n)%nat) by apply Nat.Div0.mul_div_le.
    assert (Hhi : (n < m * S s)%nat) by (apply Nat.mul_succ_div_gt; lia).
    assert (Hnth : forall j, nth_error (every_from s 0 x) j
                             = nth_error x (j * s)).
    { intros j. rewrite every_from_nth by assumption. reflexivity. }
    eexists. split; [reflexivity|]. split; [exact Hnth|]. split.
    + assert (H : nth_error (every_from s 0 x) (m - 1) <> None).
      { rewrite Hnth. apply nth_error_Some. fold n. nia. }
      apply nth_error_Some in H. lia.
    + assert (H : nth_error (every_from s 0 x) (2 * m) = None).
      { rewrite Hnth. apply nth_error_None. fold n. nia. }
      apply nth_error_None in H. exact H.
  - intros A B m x y Hlen. unfold downsample. rewrite <- Hlen.
    destruct (m <? List.length x)%nat; [|cbn; now f_equal].
    destruct m; [reflexivity|]. cbn. f_equal.
    now apply every_from_length.
Qed.

(** * Further properties of the creation of the plots *)

(** The rows of a loaded window are rows of the refreshed cache that pass the
    filter. *)
Lemma load_data_window_rows (f : Faults) (frt : bool) (c h : Q) (d : Disk)
    (r : Row) :
  In r (rows (snd (fst (load_data_window f frt c h d)))) ->
  exists cache,
    PARQUET_FILE (fst (refresh_parquet_from_csv f d)) = Holds cache /\
    In r (rows cache) /\ in_window (c - h) (c + h) r = true.
Proof.
  unfold load_data_window.
  destruct (refresh_parquet_from_csv f d) as [d1 log1]; cbn [fst].
  unfold read_table, bind, read. destruct frt; cbn; [intros []|].
  destruct (PARQUET_FILE d1) as [| |cache]; cbn; try (intros []).
  intros Hin. apply filter_In in Hin. exists cache. tauto.
Qed.

Lemma bind_on_window_get {B} (k : PlotWindow -> St Session B) (s : Session) :
  bind (on_window get) k s
  = k (window s) (mkSession (window s) (disk s) (stdout s)).
Proof. reflexivity. Qed.

Lemma bind_on_window_modify {B} (f : PlotWindow -> PlotWindow)
    (k : unit -> St Session B) (s : Session) :
  bind (on_window (modify f)) k s
  = k tt (mkSession (f (window s)) (disk s) (stdout s)).
Proof. reflexivity. Qed.

Lemma bind_print {B} (l : LogLine) (k : unit -> St Session B) (s : Session) :
  bind (print l) k s
  = k tt (mkSession (window s) (disk s) (stdout s ++ [l])).
Proof. reflexivity. Qed.

Lemma bind_load_window {B} (f : Faults) (b : bool) (c h : Q)
    (k : DataFrame -> St Session B) (s : Session) :
  bind (load_window f b c h) k s
  = k (snd (fst (load_data_window f b c h (disk s))))
      (mkSession (window s) (fst (fst (load_data_window f b c h (disk s))))
                 (stdout s ++ snd (load_data_window f b c h (disk s)))).
Proof.
  unfold bind, load_window.
  destruct (load_data_window f b c h (disk s)) as [[d' df] lg]. reflexivity.
Qed.

Lemma bind_try {S A B} (m : St S A) (k : exn + A -> St S B) (s : S) :
  bind (try_ m) k s = k (snd (m s)) (fst (m s)).
Proof. unfold bind, try_. destruct (m s) as [s1 r]. reflexivity. Qed.

(** Loading the configuration returns normally and assigns at most the
    cursor time and the x range. *)
Lemma load_plot_config_shape (failing : bool) (s : Session) :
  exists w' out' saved,
    load_plot_config failing s = (mkSession w' (disk s) out', inr saved) /\
    frames w' = frames (window s) /\ data w' = data (window s) /\
    plot_order w' = plot_order (window s).
Proof.
  unfold load_plot_config, try_, read_config, read, bind.
  destruct failing; cbn; [eexists _, _, _; split; [reflexivity|]; auto|].
  destruct (CONFIG_FILE (disk s)); cbn;
    eexists _, _, _; (split; [reflexivity|]); auto.
Qed.

(** The window after the constructor has no plot, or one plot for each
    entry of the channel order that is a column of the frame in memory. *)
Lemma PlotWindow_new_frames (env : LoadEnv) (d : Disk) :
  frames (window (fst (PlotWindow_new env d))) = [] \/
  exists df,
    data (window (fst (PlotWindow_new env d))) = Some df /\
    frames (window (fst (PlotWindow_new env d)))
    = new_frames 0 (columns df)
        (plot_order (window (fst (PlotWindow_new env d)))).
Proof.
  assert (H : forall s r, PlotWindow_new env d = (s, r) ->
            frames (window s) = [] \/
            exists df, data (window s) = Some df /\
                       frames (window s)
                       = new_frames 0 (columns df) (plot_order (window s))).
  2: { destruct (PlotWindow_new env d) as [s r] eqn:E.
       exact (H s r eq_refl). }
  intros s r. unfold PlotWindow_new, load_data_and_create_plots.
  rewrite bind_try.
  match goal with
  | |- context [fst (?b ?s0)] => destruct (b s0) as [s1 r1] eqn:E
  end.
  cbn [fst snd].
  assert (Hs1 : frames (window s1) = [] /\
                (r1 = inr true -> exists df, data (window s1) = Some df)).
  { revert E.
    rewrite bind_on_window_get, bind_load_window, bind_on_window_modify.
    cbn [window disk stdout].
    destruct (empty _).
    - rewrite bind_print. unfold ret. intros E. injection E as <- <-.
      split; [reflexivity | discriminate].
    - unfold bind at 1.
      match goal with
      | |- context [load_plot_config ?f ?s0] =>
          destruct (load_plot_config_shape f s0)
            as (w' & out' & saved & -> & Hf & Hd & _)
      end.
      rewrite bind_on_window_modify, bind_on_window_get.
      cbn [window disk stdout x_range set_plot_order].
      destruct (x_range w') as [|v].
      + unfold bind at 1. unfold raise at 1. intros E. injection E as <- <-.
        split; [exact Hf | discriminate].
      + rewrite bind_ret.
        destruct (match v with Some range => range | None => _ end)
          as [xmin xmax].
        rewrite bind_load_window, bind_on_window_modify. unfold ret.
        intros E. injection E as <- <-. cbn. split; [exact Hf | eauto]. }
  destruct Hs1 as [Hf1 Hd1].
  destruct r1 as [e | [|]].
  - unfold print, modify. intros E0. injection E0 as <- _. now left.
  - destruct (Hd1 eq_refl) as [df Hdf].
    rewrite bind_on_window_get. rewrite Hdf. cbn [or_raise]. rewrite bind_ret.
    destruct (time_column df) as [times|]; cbn [or_raise].
    2: { unfold bind, raise. intros E0. injection E0 as <- _. now left. }
    rewrite bind_ret, Hf1. cbn [List.length app].
    destruct (new_frames 0 (columns df) (plot_order (window s1)))
      as [|fr created] eqn:En.
    + unfold on_window, modify. cbn. intros E0. injection E0 as <- _.
      now left.
    + destruct (rows df).
      * unfold raise. intros E0. injection E0 as <- _. now left.
      * unfold on_window, modify. cbn. intros E0. injection E0 as <- _.
        right. exists df. cbn. split; [exact Hdf | now rewrite En].
  - unfold ret. intros E0. injection E0 as <- _. now left.
Qed.


Lemma index_of_existsb (name : string) (cols : list string) :
  existsb (String.eqb name) cols = true -> index_of name cols <> None.
Proof.
  induction cols as [|c cs IH]; cbn; [discriminate|].
  rewrite (String.eqb_sym name c).
  destruct (String.eqb c name); [discriminate|]. cbn. intros H.
  destruct (index_of name cs); [discriminate | now apply IH].
Qed.

(** The frames created by the loop: each shows an entry of the channel order
    that is a column, and each is found again through its own widget. *)
Lemma new_frames_spec (cols order : list string) (n : nat) (f : PlotFrame) :
  In f (new_frames n cols order) ->
  In (var_name f) order /\
  existsb (String.eqb (var_name f)) cols = true /\
  (n <= plot_widget f)%nat /\
  frame_of (new_frames n cols order) (plot_widget f) = Some f.
Proof.
  revert n. induction order as [|col rest IH]; intros n; cbn; [intros []|].
  destruct (existsb (String.eqb col) cols) eqn:Ecol.
  - intros [<- | Hin].
    + cbn. rewrite Nat.eqb_refl. auto.
    + destruct (IH (S n) Hin) as (H1 & H2 & H3 & H4).
      repeat split; auto; [lia|].
      unfold frame_of in *. cbn.
      destruct (Nat.eqb n (plot_widget f)) eqn:E; [|exact H4].
      apply Nat.eqb_eq in E. lia.
  - intros Hin. destruct (IH n Hin) as (H1 & H2 & H3 & H4). auto.
Qed.

(** X13.  Whatever the constructor of the window leaves behind, every frame
    it created shows a channel that is listed in the channel order and is a
    column of the frame in memory, so that the lookups of the cursor and of
    the delta lines find it, and a click on the plot of a frame finds that
    frame. *)
Theorem created_frames_are_columns (env : LoadEnv) (d : Disk)
    (f : PlotFrame) :
  In f (frames (window (fst (PlotWindow_new env d)))) ->
  exists df,
    data (window (fst (PlotWindow_new env d))) = Some df /\
    column df (var_name f) <> None /\
    In (var_name f) (plot_order (window (fst (PlotWindow_new env d)))) /\
    frame_of (frames (window (fst (PlotWindow_new env d)))) (plot_widget f)
      = Some f.
Proof.
  intros Hin.
  destruct (PlotWindow_new_frames env d) as [E | (df & Hd & Hf)].
  - rewrite E in Hin. inversion Hin.
  - rewrite Hf in Hin |- *.
    destruct (new_frames_spec _ _ _ _ Hin) as (H1 & H2 & _ & H4).
    exists df. repeat split; auto.
    unfold column. intros E. apply (index_of_existsb _ _ H2).
    destruct (index_of (var_name f) (columns df)); [discriminate|reflexivity].
Qed.

Lemma created_frames_are_columns_witness :
  exists df,
    data (window (fst (PlotWindow_new quiet_env disk_bare_config))) = Some df /\
    column df "A" <> None.
Proof.
  destruct (created_frames_are_columns quiet_env disk_bare_config
              (mkFrame 0 "A") (or_introl eq_refl))
    as (df & Hd & Hc & _).
  exists df. split; assumption.
Defined.

(** X14.  The constructor loads its first window around time 0, before the
    configuration is read.  When the source holds nothing new and no row of
    the cache lies within 60 of time 0, it prints that no data was loaded
    and creates no plot, whatever cursor time and x range the configuration
    file holds; the configuration is not even read. *)
Theorem no_plot_without_rows_near_zero (env : LoadEnv) (d : Disk)
    (cache : DataFrame) :
  no_new_rows d -> PARQUET_FILE d = Holds cache ->
  (forall r, In r (rows cache) -> time r < - (60) \/ 60 < time r) ->
  frames (window (fst (PlotWindow_new env d))) = [] /\
  current_time (window (fst (PlotWindow_new env d))) = 0 /\
  x_range (window (fst (PlotWindow_new env d))) = Unset /\
  In Error_no_data (stdout (fst (PlotWindow_new env d))) /\
  ~ In Debug_failed_to_load_config (stdout (fst (PlotWindow_new env d))) /\
  snd (PlotWindow_new env d) = inr tt.
Proof.
  intros Hno Hp Hout.
  assert (Hempty : empty (snd (fst (load_data_window (faults1 env)
                     (fail_table1 env) 0 60 d))) = true).
  { unfold empty.
    destruct (rows (snd (fst (load_data_window (faults1 env)
                (fail_table1 env) 0 60 d)))) as [|r rs] eqn:Er;
      [reflexivity|].
    exfalso.
    destruct (load_data_window_rows (faults1 env) (fail_table1 env) 0 60 d r)
      as (cache1 & Hc1 & Hin & Hw).
    { rewrite Er. now left. }
    rewrite (refresh_no_new_rows _ d Hno), Hp in Hc1. injection Hc1 as <-.
    apply in_window_iff in Hw. destruct (Hout r Hin); lra. }
  assert (H : exists s, PlotWindow_new env d = (s, inr tt) /\
              frames (window s) = [] /\ current_time (window s) = 0 /\
              x_range (window s) = Unset /\ In Error_no_data (stdout s) /\
              ~ In Debug_failed_to_load_config (stdout s)).
  { unfold PlotWindow_new, load_data_and_create_plots.
    rewrite bind_try, bind_on_window_get, bind_load_window,
      bind_on_window_modify.
    cbn [window disk stdout current_time PlotWindow_init].
    rewrite Hempty, bind_print. cbn [fst snd ret].
    eexists. split; [reflexivity|]. cbn [window stdout].
    repeat split; try reflexivity.
    - apply in_or_app. right. now left.
    - intros Hin. apply in_app_or in Hin as [Hin | Hin];
        [|cbn in Hin; destruct Hin as [Hin | []]; discriminate].
      cbn in Hin.
      unfold load_data_window in Hin.
      destruct (refresh_parquet_from_csv (faults1 env) d) as [d1 log1] eqn:Er.
      assert (Hl1 : ~ In Debug_failed_to_load_config log1).
      { unfold refresh_parquet_from_csv in Er.
        destruct (negb _ || negb _).
        - injection Er as _ <-. intros [].
        - destruct (incremental_update (faults1 env) d) as [d' [e | [|]]];
            injection Er as _ <-; intros H; cbn in H;
            intuition discriminate. }
      destruct (read_table _ _ _ d1) as [d2 [e | df]]; cbn in Hin.
      + apply in_app_or in Hin as [Hin | Hin]; [now apply Hl1|].
        cbn in Hin. destruct Hin as [Hin | []]. discriminate.
      + now apply Hl1. }
  destruct H as (s & -> & H1 & H2 & H3 & H4 & H5). cbn [fst snd].
  repeat split; assumption.
Qed.

Lemma no_plot_without_rows_near_zero_witness :
  frames (window (fst (PlotWindow_new quiet_env disk_late))) = [].
Proof.
  refine (proj1 (no_plot_without_rows_near_zero quiet_env disk_late late_frame
                   _ eq_refl _)).
  - intros src h E1 E2. injection E1 as <-. injection E2 as <-. reflexivity.
  - intros r [<- | [<- | []]]; right; reflexivity.
Defined.

(** A window load when the source holds nothing new and the cache can be
    read. *)
Lemma load_data_window_in_sync (f : Faults) (c h : Q) (d : Disk)
    (cache : DataFrame) :
  no_new_rows d -> PARQUET_FILE d = Holds cache ->
  fst (fst (load_data_window f false c h d)) = d /\
  snd (fst (load_data_window f false c h d))
  = mkDF (columns cache) (filter (in_window (c - h) (c + h)) (rows cache)).
Proof.
  intros Hno Hp. unfold load_data_window.
  pose proof (refresh_no_new_rows f d Hno) as Hd.
  destruct (refresh_parquet_from_csv f d) as [d1 log1]. cbn in Hd. subst d1.
  unfold read_table, bind, read. rewrite Hp. cbn. auto.
Qed.

Lemma bind_eq {S A B} (m : St S A) (k : A -> St S B) (s s' : S) (a : A) :
  m s = (s', inr a) -> bind m k s = k a s'.
Proof. intros E. unfold bind. now rewrite E. Qed.

(** Loading a configuration file that holds a dict: absent keys get their
    defaults. *)
Lemma load_plot_config_ok (s : Session) (cfg : Config) :
  CONFIG_FILE (disk s) = Holds cfg ->
  load_plot_config false s =
  (mkSession
     (set_x_range (Assigned (get_default (cfg_x_range cfg) None))
        (set_current_time (get_default (cfg_current_time cfg) 0) (window s)))
     (disk s) (stdout s),
   inr (Some (get_default (cfg_plot_order cfg) []))).
Proof.
  intros Hc. unfold load_plot_config, try_, read_config, read, bind.
  rewrite Hc. reflexivity.
Qed.

(** X15.  With a cache that is up to date and has a row within 60 of time 0,
    and a saved configuration holding a channel order, a cursor time and an
    x range [(a, b)] with [a < b], the constructor ends with the saved
    cursor time, x range and channel order, and with a frame in memory that
    holds exactly the rows of the cache whose time lies between
    [center - window] and [center + window], in the order of the cache,
    where [center = (a + b) / 2] and [window = (b - a) / 2 + 1] are computed
    from the saved range as the code computes them. *)
Theorem constructor_loads_saved_range (env : LoadEnv) (d : Disk)
    (cache : DataFrame) (order : list string) (ct a b : Q) :
  a < b ->
  fail_table1 env = false -> fail_config env = false ->
  fail_table2 env = false ->
  no_new_rows d -> PARQUET_FILE d = Holds cache ->
  CONFIG_FILE d = Holds (mkConfig (Some order) (Some ct) (Some (Some (a, b)))) ->
  order <> [] ->
  (exists r, In r (rows cache) /\ - (60) <= time r /\ time r <= 60) ->
  exists df,
    data (window (fst (PlotWindow_new env d))) = Some df /\
    columns df = columns cache /\
    rows df = filter (in_window ((a + b) / 2 - ((b - a) / 2 + 1))
                                ((a + b) / 2 + ((b - a) / 2 + 1)))
                     (rows cache) /\
    current_time (window (fst (PlotWindow_new env d))) = ct /\
    x_range (window (fst (PlotWindow_new env d))) = Assigned (Some (a, b)) /\
    plot_order (window (fst (PlotWindow_new env d))) = order.
Proof.
  intros _ F1 F2 F3 Hno Hp Hcfg Horder (r0 & Hin0 & Hlo0 & Hhi0).
  set (half := (b - a) / 2 + 1). set (center := (a + b) / 2).
  set (df2 := mkDF (columns cache)
                (filter (in_window (center - half) (center + half))
                        (rows cache))).
  assert (H : exists s r,
             PlotWindow_new env d = (s, r) /\
             data (window s) = Some df2 /\ current_time (window s) = ct /\
             x_range (window s) = Assigned (Some (a, b)) /\
             plot_order (window s) = order).
  { unfold PlotWindow_new, load_data_and_create_plots.
    rewrite bind_try, bind_on_window_get, bind_load_window,
      bind_on_window_modify.
    cbn [window disk stdout current_time PlotWindow_init].
    rewrite F1.
    destruct (load_data_window_in_sync (faults1 env) 0 60 d cache Hno Hp)
      as [-> ->].
    assert (He : empty (mkDF (columns cache)
                   (filter (in_window (0 - 60) (0 + 60)) (rows cache)))
                 = false).
    { unfold empty. cbn [rows].
      destruct (filter (in_window (0 - 60) (0 + 60)) (rows cache))
        as [|x l] eqn:Ef; [|reflexivity].
      exfalso. assert (Hr0 : In r0 (filter (in_window (0 - 60) (0 + 60))
                                           (rows cache))).
      { apply filter_In. split; [assumption|].
        apply in_window_iff. split; lra. }
      rewrite Ef in Hr0. inversion Hr0. }
    rewrite He.
    destruct order as [|c cs]; [congruence|].
    match goal with
    | |- context [snd (?body ?s0)] =>
        assert (Eb : exists s1,
                   body s0 = (s1, inr true) /\
                   window s1
                   = set_data (Some df2)
                       (set_plot_order (c :: cs)
                          (set_x_range (Assigned (Some (a, b)))
                             (set_current_time ct (window s0)))))
    end.
    { rewrite F2.
      erewrite bind_eq by (apply load_plot_config_ok; exact Hcfg).
      cbn [cfg_current_time cfg_x_range cfg_plot_order get_default].
      rewrite bind_on_window_modify, bind_on_window_get.
      cbn [window disk stdout x_range set_x_range set_plot_order
           set_current_time set_data].
      rewrite bind_ret. cbn [current_time]. fold center half.
      rewrite bind_load_window, bind_on_window_modify.
      cbn [window disk stdout]. rewrite F3.
      destruct (load_data_window_in_sync (faults2 env) center half d cache
                  Hno Hp) as [-> ->].
      fold df2. eexists. split; reflexivity. }
    destruct Eb as (s1 & -> & Hw1). cbn [fst snd].
    rewrite bind_on_window_get, Hw1.
    cbn [data set_data or_raise]. rewrite bind_ret.
    match goal with
    | |- exists s r, ?t = _ /\ _ =>
        assert (Hk : window (fst t) = window s1 \/
                     exists fs, window (fst t) = set_frames fs (window s1))
    end.
    { rewrite Hw1.
      destruct (time_column df2); cbn [or_raise];
        [|unfold bind, raise; cbn; auto].
      rewrite bind_ret.
      destruct (new_frames _ _ _); [cbn; eauto|].
      destruct (rows df2); cbn; eauto. }
    match goal with
    | |- exists s r, ?t = _ /\ _ => destruct t as [s r] eqn:Et
    end.
    exists s, r. split; [reflexivity|]. cbn [fst] in Hk.
    destruct Hk as [-> | (fs & ->)]; rewrite Hw1; cbn; auto. }
  destruct H as (s & r & -> & Hd & Hct & Hx & Hpo).
  exists df2. cbn [fst]. repeat split; auto.
Qed.

Lemma constructor_loads_saved_range_witness :
  exists df,
    data (window (fst (PlotWindow_new quiet_env disk_configured))) = Some df /\
    rows df = filter (in_window ((1 + 2) / 2 - ((2 - 1) / 2 + 1))
                                ((1 + 2) / 2 + ((2 - 1) / 2 + 1)))
                     (rows cache3).
Proof.
  destruct (constructor_loads_saved_range quiet_env disk_configured cache3
              ["A"%string] 1 1 2 eq_refl eq_refl eq_refl eq_refl)
    as (df & Hd & _ & Hr & _).
  - intros src h E1 E2. injection E1 as <-. injection E2 as <-. reflexivity.
  - reflexivity.
  - reflexivity.
  - discriminate.
  - exists (sample 0 0). split; [now left|]. split; discriminate.
  - exists df. split; assumption.
Defined.

(** * The status line after a click *)

Lemma frame_cells_some (df : DataFrame) (idx : nat) (fs : list PlotFrame) :
  (forall f, In f fs -> column df (var_name f) <> None) ->
  (idx < List.length (rows df))%nat ->
  exists cells, frame_cells df idx fs = Some cells.
Proof.
  intros Hcols Hidx. induction fs as [|f fs IH]; cbn; [eauto|].
  destruct (column df (var_name f)) as [ys|] eqn:Ec.
  - destruct (nth_error_in_range ys idx) as [y ->].
    { now rewrite (column_length _ _ _ Ec). }
    destruct IH as [cells ->]; [intros g Hg; apply Hcols; now right|]. eauto.
  - exfalso. apply (Hcols f); [now left | assumption].
Qed.

Lemma frame_of_in (fs : list PlotFrame) (pw : nat) (f : PlotFrame) :
  frame_of fs pw = Some f -> In f fs.
Proof. intros H. apply find_some in H. tauto. Qed.

(** X16.  In a window whose frame has rows and whose plotted channels are
    columns of the frame, a click without Control on a plot returns without
    an exception, and the status line then shows the sample nearest to the
    clicked x: the time of that row and the value of the clicked channel in
    that row, while the cursor time itself stays the clicked x. *)
Theorem click_shows_nearest_sample (ev : MouseEvent) (pw : nat)
    (w : PlotWindow) (af : PlotFrame) (df : DataFrame) (times : list Q) :
  ctrl ev = false -> frame_of (frames w) pw = Some af ->
  data w = Some df -> time_column df = Some times -> times <> [] ->
  (forall f, In f (frames w) -> column df (var_name f) <> None) ->
  exists i t ys y,
    nearest_index times (view_x ev) = Some i /\
    nth_error times i = Some t /\
    column df (var_name af) = Some ys /\ nth_error ys i = Some y /\
    on_mouse_click ev pw w
    = (set_time_label (Some (mkTimeInfo t y (var_name af)))
         (set_current_time (view_x ev)
            (set_active_frame (Some af)
               (set_cursor_locked (negb (cursor_locked w)) w))),
       inr tt).
Proof.
  intros Hc Hf Hd Ht Hne Hcols.
  destruct (nearest_index_some times (view_x ev) Hne) as (i & t & Hi & Hti).
  assert (Hlen : List.length times = List.length (rows df))
    by now apply time_column_length.
  assert (Hidx : (i < List.length (rows df))%nat).
  { rewrite <- Hlen. apply nth_error_Some. congruence. }
  destruct (column df (var_name af)) as [ys|] eqn:Ey.
  2: { exfalso. apply (Hcols af); [now apply (frame_of_in _ pw) | assumption]. }
  destruct (nth_error_in_range ys i) as [y Hy].
  { now rewrite (column_length _ _ _ Ey). }
  destruct (frame_cells_some df i (frames w) Hcols Hidx) as [cells Hcells].
  exists i, t, ys, y. repeat (split; [assumption || reflexivity|]).
  unfold on_mouse_click. rewrite Hc, bind_modify, bind_get, bind_modify.
  cbn [frames set_cursor_locked]. rewrite Hf, bind_modify.
  cbn [data set_cursor_locked]. rewrite Hd. cbn [or_raise]. rewrite bind_ret.
  rewrite Ht. cbn [or_raise]. rewrite bind_ret, Hi. cbn [or_raise].
  rewrite bind_ret, Hti. cbn [or_raise]. rewrite bind_ret, Ey.
  cbn [or_raise]. rewrite bind_ret, Hy. cbn [or_raise].
  rewrite bind_ret, Hcells. cbn [or_raise]. rewrite bind_ret.
  unfold update_top_label. rewrite bind_get.
  cbn [data active_frame current_time frames set_current_time
       set_active_frame set_cursor_locked].
  rewrite Hd, Ht. cbn [or_raise]. rewrite bind_ret, Hi. cbn [or_raise].
  rewrite bind_ret, Hti. cbn [or_raise]. rewrite bind_ret, Ey.
  cbn [or_raise]. rewrite bind_ret, Hy. cbn [or_raise].
  rewrite bind_ret, bind_modify, Hcells. cbn [or_raise].
  rewrite bind_ret. reflexivity.
Qed.

Lemma click_shows_nearest_sample_witness :
  time_label (fst (on_mouse_click (mkEvent false true (7 # 2)) 1
                     two_plot_window))
  = Some (mkTimeInfo 3 30 "B").
Proof.
  destruct (click_shows_nearest_sample (mkEvent false true (7 # 2)) 1
              two_plot_window (mkFrame 1 "B") two_channel_frame
              [0; 1; 2; 3; 4; 5] eq_refl eq_refl eq_refl eq_refl)
    as (i & t & ys & y & Hi & Ht & Hy & Hyi & ->).
  - discriminate.
  - intros f [<- | [<- | []]]; discriminate.
  - vm_compute in Hi. injection Hi as <-.
    vm_compute in Ht. injection Ht as <-.
    vm_compute in Hy. injection Hy as <-.
    vm_compute in Hyi. injection Hyi as <-.
    reflexivity.
Defined.

(** * A launch without the source log *)

(** X17.  Unlike a refresh, which returns silently, the start-up code does
    not survive a missing source log: whatever else the disk holds, it ends
    with an uncaught exception, before it has written anything. *)
Theorem launch_without_source_raises (f : Faults) (d : Disk) :
  CSV_FILE d = Missing ->
  exists e, main_bootstrap f d = (d, inl e).
Proof.
  intros Hs. unfold main_bootstrap, read_csv, bind, read.
  destruct (negb (exists_ (PARQUET_FILE d)) || negb (exists_ (TIME_FILE d))).
  - rewrite Hs. destruct (fail_read_csv f); eauto.
  - destruct (fail_read_time f); [eauto|].
    destruct (TIME_FILE d); [eauto | eauto |].
    rewrite Hs. destruct (fail_read_csv f); eauto.
Qed.

Lemma launch_without_source_raises_witness :
  exists e,
    main_bootstrap no_faults (mkDisk Missing Missing Missing Missing)
    = (mkDisk Missing Missing Missing Missing, inl e).
Proof.
  exact (launch_without_source_raises no_faults
           (mkDisk Missing Missing Missing Missing) eq_refl).
Defined.

(** * Saving and loading the view configuration *)

(** X12.  A configuration saved without a failure by a window that has a
    plot is read back by [load_plot_config] with the content that was
    saved: the loading window gets the saved cursor time and the saved x
    range, and the saved channel order is answered.  Saving never touches
    the window nor the other files and never raises.  A window without any
    plot widget saves nothing (the IndexError of [self.plot_widgets[0]]
    comes before the file is opened), and so does a save whose open fails.
    A save that fails after the open leaves a configuration file that
    cannot be loaded, and the next constructor run on that disk creates no
    plot. *)
Theorem config_round_trip :
  (forall (s : Session) (range : Q * Q) (w' : PlotWindow)
          (out : list LogLine),
      snd (save_plot_config WriteOk (Some range) s) = inr None /\
      load_plot_config false
        (mkSession w' (disk (fst (save_plot_config WriteOk (Some range) s)))
                   out)
      = (mkSession
           (set_x_range (Assigned (Some range))
              (set_current_time (current_time (window s)) w'))
           (disk (fst (save_plot_config WriteOk (Some range) s))) out,
         inr (Some (plot_order (window s))))) /\
  (forall (fault : WriteFault) (first_view : option (Q * Q)) (s : Session),
      window (fst (save_plot_config fault first_view s)) = window s /\
      CSV_FILE (disk (fst (save_plot_config fault first_view s)))
        = CSV_FILE (disk s) /\
      PARQUET_FILE (disk (fst (save_plot_config fault first_view s)))
        = PARQUET_FILE (disk s) /\
      TIME_FILE (disk (fst (save_plot_config fault first_view s)))
        = TIME_FILE (disk s) /\
      exists printed, snd (save_plot_config fault first_view s) = inr printed) /\
  (forall (fault : WriteFault) (s : Session),
      save_plot_config fault None s = (s, inr (Some IndexError))) /\
  (forall (s : Session) (range : Q * Q),
      snd (save_plot_config FailsAtOpen (Some range) s) = inr (Some OSError) /\
      disk (fst (save_plot_config FailsAtOpen (Some range) s)) = disk s) /\
  (forall (s : Session) (range : Q * Q) (e : exn) (env : LoadEnv),
      snd (save_plot_config (FailsAfterOpen e) (Some range) s)
        = inr (Some e) /\
      CONFIG_FILE (disk (fst (save_plot_config (FailsAfterOpen e)
                                (Some range) s))) = Garbled /\
      frames (window (fst (PlotWindow_new env
                (disk (fst (save_plot_config (FailsAfterOpen e)
                              (Some range) s)))))) = []).
Proof.
  split; [|split; [|split; [|split]]].
  - intros s range w' out. split; reflexivity.
  - intros fault [range|] s; [destruct fault|]; cbn; repeat split; eauto.
  - intros fault s. reflexivity.
  - intros s range. split; reflexivity.
  - intros s range e env. split; [reflexivity|]. split; [reflexivity|].
    destruct (PlotWindow_new_unloadable env
                (disk (fst (save_plot_config (FailsAfterOpen e)
                              (Some range) s))))
      as (s' & -> & Hf & _); [right; right; reflexivity | exact Hf].
Qed.
